(** * CaTE parameter marshalling and calibration driver

    A shallow embedding of [cate/param.py] (the [Parameter] classes and
    the codec [params2ndarray] / [update_params]) and of the calibration
    driver of [examples/needles/util.py] ([run_calibration],
    [run_initial_marker_optimization]).

    Python objects live in a heap addressed by natural numbers, so that a
    collection is a list of references and the in-place assignment
    [p.value = ...] is a heap update seen through every alias.  Exceptions
    and [warnings.warn] are effects of a small state monad. *)

From Stdlib Require Import PrimFloat String ZArith Lia.
From Stdlib Require SpecFloat FloatOps.
From stdpp Require Import base list sorting.

(* ===================================================================== *)
(** * Python values *)
(* ===================================================================== *)

(** The exceptions the modelled code can raise; [OtherException] stands
    for whatever else a collaborator outside this code may throw. *)
Inductive exn :=
| TypeError
| ValueError
| AssertionError
| OtherException (name : string).

(** The part of the Python value universe the code handles.  [VFloat] is
    a binary64 float, [VArr] a one-dimensional [numpy.ndarray] of floats,
    [VList] a Python list of floats, [VCallable] a zero-argument
    producer, [VExcClass e] the exception class object itself (what
    [return ValueError] hands back) and [VExcInst e] an instance of it,
    [VInt] a Python [int] of any size and [VBool] one of [True] and
    [False].  Text ([str], [bytes]), which is a scalar for [np.isscalar]
    and a sequence for [len] and slicing, is not part of it, nor are
    complex numbers. *)
Inductive PyVal :=
| VNone
| VFloat (v : float)
| VArr (xs : list float)
| VList (xs : list float)
| VCallable (f : unit -> PyVal)
| VExcClass (e : exn)
| VExcInst (e : exn)
| VInt (n : Z)
| VBool (b : bool).

Inductive result (A : Type) :=
| Ok (a : A)
| Raise (e : exn).
Arguments Ok {A} a.
Arguments Raise {A} e.

Definition is_Ok {A} (r : result A) : bool :=
  match r with Ok _ => true | Raise _ => false end.

(** [callable(v)]: functions and classes are callable. *)
Definition callable (v : PyVal) : bool :=
  match v with
  | VCallable _ | VExcClass _ => true
  | _ => false
  end.

(** [v()] for a callable [v]. *)
Definition call (v : PyVal) : PyVal :=
  match v with
  | VCallable f => f tt
  | VExcClass e => VExcInst e
  | _ => v
  end.

(** [np.isscalar(v)]: any single number, a boolean included; not [None],
    not an array or a list, not a function or a class. *)
Definition np_isscalar (v : PyVal) : bool :=
  match v with
  | VFloat _ | VInt _ | VBool _ => true
  | _ => false
  end.

(** [isinstance(v, np.ndarray)] and [issubclass(type(v), list)]. *)
Definition is_ndarray (v : PyVal) : bool :=
  match v with VArr _ => true | _ => false end.

Definition is_list (v : PyVal) : bool :=
  match v with VList _ => true | _ => false end.

(** [len(v)]: only arrays and lists are sized; a number has no [len]. *)
Definition py_len (v : PyVal) : result nat :=
  match v with
  | VArr xs | VList xs => Ok (length xs)
  | _ => Raise TypeError
  end.

(** [v.item()] on an ndarray: the single element as a Python number. *)
Definition ndarray_item (xs : list float) : result PyVal :=
  match xs with
  | [v] => Ok (VFloat v)
  | _ => Raise ValueError
  end.

(** [np.array(xs, dtype=np.float)] on a list of numbers. *)
Definition np_array (xs : list float) : PyVal := VArr xs.

(** [x[i:j]]: slicing clips to the available range and never raises on a
    sequence; anything else (a number included) is not subscriptable. *)
Definition slice {A} (xs : list A) (i j : nat) : list A :=
  take (j - i) (drop i xs).

Definition getslice (x : PyVal) (i j : nat) : result PyVal :=
  match x with
  | VArr xs => Ok (VArr (slice xs i j))
  | VList xs => Ok (VList (slice xs i j))
  | _ => Raise TypeError
  end.

(* ===================================================================== *)
(** * The [Parameter] classes *)
(* ===================================================================== *)

Inductive cls := Parameter_cls | ScalarParameter_cls | VectorParameter_cls.

(** A [Parameter] object: its class and its four attributes.  ([Parameter]
    is a reserved word of Rocq, hence the record's name.) *)
Record ParameterObj := mkParameter {
  klass : cls;
  _value : PyVal;
  _value_original : PyVal;
  optimize : bool;
  _bounds : option (PyVal * PyVal)
}.

(** [Parameter.__init__]. *)
Definition Parameter_init (c : cls) (value : PyVal) (optimize : bool)
    (bounds : option (PyVal * PyVal)) : ParameterObj :=
  {| klass := c; _value := value; _value_original := value;
     optimize := optimize; _bounds := bounds |}.

(** [ScalarParameter.__init__]: no validation, straight to the base. *)
Definition ScalarParameter_init (value : PyVal) (optimize : bool)
    (bounds : option (PyVal * PyVal)) : ParameterObj :=
  Parameter_init ScalarParameter_cls value optimize bounds.

(** [VectorParameter.__init__]. *)
Definition VectorParameter_init (value : PyVal) (optimize : bool)
    (bounds : option (PyVal * PyVal)) : result ParameterObj :=
  let value := match value with VList xs => np_array xs | _ => value end in
  match value with
  | VArr xs =>
      if negb (length xs =? 3) then Raise ValueError
      else Ok (Parameter_init VectorParameter_cls value optimize bounds)
  | _ => Raise TypeError
  end.

(** The [value] getter (shared by all classes): producers are resolved on
    every read. *)
Definition Parameter_value (p : ParameterObj) : PyVal :=
  if callable (_value p) then call (_value p) else _value p.

Definition with_value (p : ParameterObj) (value : PyVal) : ParameterObj :=
  {| klass := klass p; _value := value;
     _value_original := _value_original p;
     optimize := optimize p; _bounds := _bounds p |}.

(** The [value] setter of [Parameter], inherited by [VectorParameter]. *)
Definition Parameter_set_value (p : ParameterObj) (value : PyVal) : result ParameterObj :=
  Ok (with_value p value).

(** The [value] setter of [ScalarParameter]. *)
Definition ScalarParameter_set_value (p : ParameterObj) (value : PyVal)
    : result ParameterObj :=
  match value with
  | VNone => Ok (with_value p value)
  | _ =>
      match (match value with
             | VArr xs => ndarray_item xs
             | _ => Ok value
             end) with
      | Raise e => Raise e
      | Ok value =>
          if negb (np_isscalar value) then Raise TypeError
          else Ok (with_value p value)
      end
  end.

(** [p.value = v], dispatched on the class of [p]. *)
Definition set_value (p : ParameterObj) (value : PyVal) : result ParameterObj :=
  match klass p with
  | ScalarParameter_cls => ScalarParameter_set_value p value
  | _ => Parameter_set_value p value
  end.

(** [Parameter.__len__]: looks at the stored attribute, not at the
    resolved value. *)
Definition Parameter_len (p : ParameterObj) : result nat :=
  if np_isscalar (_value p) then Ok 1 else py_len (_value p).

(** The [bounds] getter. *)
Definition Parameter_bounds (p : ParameterObj) : result (PyVal * PyVal) :=
  match _bounds p with
  | Some b => Ok b
  | None =>
      match Parameter_len p with
      | Raise e => Raise e
      | Ok n =>
          let lower := replicate n neg_infinity in
          match Parameter_len p with
          | Raise e => Raise e
          | Ok m =>
              let upper := replicate m infinity in
              Ok (VList lower, VList upper)
          end
      end
  end.

(* ===================================================================== *)
(** * Heap, warnings and the effect monad *)
(* ===================================================================== *)

Inductive warning := UserWarning (msg : string).

Definition not_a_Parameter : warning :=
  UserWarning "A value in `params` is not of type `Parameter`. The value is ignored.".

(** The observable state: the objects and the warnings issued so far. *)
Record world := mkWorld {
  heap : list ParameterObj;
  warned : list warning
}.

(** An element of a collection: a reference to a [Parameter] object, or
    some other Python value. *)
Inductive entry :=
| Ref (a : nat)
| Other (v : PyVal).

(** Computations with state [S] that may raise.  The state reached when
    an exception is raised is kept: Python does not roll back. *)
Definition Eff (S A : Type) : Type := S -> S * result A.

Definition ret {S A} (a : A) : Eff S A := fun w => (w, Ok a).

Definition bind {S A B} (m : Eff S A) (k : A -> Eff S B) : Eff S B :=
  fun w =>
    match m w with
    | (w', Ok a) => k a w'
    | (w', Raise e) => (w', Raise e)
    end.

Definition raise {S A} (e : exn) : Eff S A := fun w => (w, Raise e).

Definition lift {S A} (r : result A) : Eff S A := fun w => (w, r).

Definition py_assert {S} (b : bool) : Eff S unit :=
  if b then ret tt else raise AssertionError.

(** [try: body except: handler] with a bare [except]. *)
Definition try_except {S A} (body : Eff S A) (handler : exn -> Eff S A)
    : Eff S A :=
  fun w =>
    match body w with
    | (w', Raise e) => handler e w'
    | r => r
    end.

Notation "'let!' x ':=' m 'in' k" := (bind m (fun x => k))
  (at level 10, x pattern, m at level 100, k at level 200).

(** The codec runs over [world]. *)
Definition M : Type -> Type := Eff world.

Definition warn (msg : warning) : M unit :=
  fun w => ({| heap := heap w; warned := warned w ++ [msg] |}, Ok tt).

(** Dereference an entry; [issubclass(type(p), Parameter)] holds exactly
    when this returns an object.  A reference to no object does not arise
    in Python and is grouped with the non-Parameters. *)
Definition as_Parameter (h : list ParameterObj) (p : entry) : option (nat * ParameterObj) :=
  match p with
  | Ref a => match h !! a with Some o => Some (a, o) | None => None end
  | Other _ => None
  end.

Definition deref (p : entry) : M (option (nat * ParameterObj)) :=
  fun w => (w, Ok (as_Parameter (heap w) p)).

(** The in-place effect of an attribute assignment on the object at [a]. *)
Definition store (a : nat) (o : ParameterObj) : M unit :=
  fun w => ({| heap := <[a := o]> (heap w); warned := warned w |}, Ok tt).


(* ===================================================================== *)
(** * The codec: [params2ndarray] and [update_params] *)
(* ===================================================================== *)

(** The output buffer of [params2ndarray].  [np.empty] hands out
    uninitialised storage: a slot is [None] until it has been written. *)
Definition buffer := list (option float).

Definition np_empty (n : nat) : buffer := replicate n None.

(** The array handed back by [return out]. *)
Definition freeze (out : buffer) : list float := map (default 0%float) out.

(** [float(n)] for a Python [int]: the nearest binary64 number, ties to
    even; an [int] beyond the range of a float has none. *)
Definition float_of_int (n : Z) : result float :=
  let v := FloatOps.SF2Prim
             (SpecFloat.binary_normalize FloatOps.prec FloatOps.emax n 0 false) in
  if is_infinity v then Raise (OtherException "OverflowError") else Ok v.

(** What NumPy stores in a [float64] array for a single Python object:
    the number itself, [nan] for [None], 1 and 0 for [True] and [False];
    a function or a class has no float conversion. *)
Definition as_float64 (store : PyVal) : result float :=
  match store with
  | VFloat v => Ok v
  | VInt n => float_of_int n
  | VBool b => Ok (if b then 1 else 0)%float
  | VNone => Ok nan
  | _ => Raise TypeError
  end.

(** [out[idx:idx + len_p] = store]: the target is the slice clipped to the
    buffer; a single object fills it, a sequence must have the target's
    length or a single element (broadcast). *)
Definition write (out : buffer) (i : nat) (ys : list float) : buffer :=
  take i out ++ map Some ys ++ drop (i + length ys) out.

Definition setslice (out : buffer) (idx len_p : nat) (store : PyVal)
    : result buffer :=
  let i := idx `min` length out in
  let m := ((idx + len_p) `min` length out) - i in
  match store with
  | VArr xs | VList xs =>
      if length xs =? m then Ok (write out i xs)
      else match xs with
           | [v] => Ok (write out i (replicate m v))
           | _ => Raise ValueError
           end
  | _ =>
      match as_float64 store with
      | Ok v => Ok (write out i (replicate m v))
      | Raise e => Raise e
      end
  end.

(** [optimizable_only and p.optimize is False]. *)
Definition excluded (optimizable_only : bool) (o : ParameterObj) : bool :=
  optimizable_only && negb (optimize o).

(** First loop of [params2ndarray]: "compute array length". *)
Fixpoint count_length (params : list entry) (optimizable_only : bool)
    (total : nat) : M nat :=
  match params with
  | [] => ret total
  | p :: params =>
      let! o := deref p in
      match o with
      | None =>
          let! _ := warn not_a_Parameter in
          count_length params optimizable_only total
      | Some (_, o) =>
          if excluded optimizable_only o
          then count_length params optimizable_only total
          else
            let! n := lift (Parameter_len o) in
            count_length params optimizable_only (total + n)
      end
  end.

(** Second loop of [params2ndarray].  The loop state is [(out, idx)]; the
    third component is [Some v] when the loop was left by [return v]. *)
Fixpoint fill (params : list entry) (optimizable_only : bool) (key : string)
    (out : buffer) (idx : nat) : M (buffer * nat * option PyVal) :=
  match params with
  | [] => ret (out, idx, None)
  | p :: params =>
      let! o := deref p in
      match o with
      | None => fill params optimizable_only key out idx
      | Some (_, o) =>
          if excluded optimizable_only o
          then fill params optimizable_only key out idx
          else
            let! len_p := lift (Parameter_len o) in
            if (key =? "value")%string then
              let store := Parameter_value o in
              let! out := lift (setslice out idx len_p store) in
              fill params optimizable_only key out (idx + len_p)
            else if (key =? "min_bound")%string then
              let! b := lift (Parameter_bounds o) in
              let! out := lift (setslice out idx len_p (fst b)) in
              fill params optimizable_only key out (idx + len_p)
            else if (key =? "max_bound")%string then
              let! b := lift (Parameter_bounds o) in
              let! out := lift (setslice out idx len_p (snd b)) in
              fill params optimizable_only key out (idx + len_p)
            else ret (out, idx, Some (VExcClass ValueError))
      end
  end.

Definition params2ndarray (params : list entry) (optimizable_only : bool)
    (key : string) : M PyVal :=
  let! total := count_length params optimizable_only 0 in
  if total =? 0 then ret (VList [])
  else
    let! (out, idx, returned) :=
      fill params optimizable_only key (np_empty total) 0 in
    match returned with
    | Some v => ret v
    | None =>
        let! _ := py_assert (idx =? total) in
        ret (VArr (freeze out))
    end.

(** The loop of [update_params]; the loop state is [idx]. *)
Fixpoint assign_slices (params : list entry) (x : PyVal)
    (optimizable_only : bool) (idx : nat) : M nat :=
  match params with
  | [] => ret idx
  | p :: params =>
      let! o := deref p in
      match o with
      | None => assign_slices params x optimizable_only idx
      | Some (a, o) =>
          if excluded optimizable_only o
          then assign_slices params x optimizable_only idx
          else
            let! len_p := lift (Parameter_len o) in
            let! _ := py_assert (negb (len_p =? 0)) in
            let! v := lift (getslice x idx (idx + len_p)) in
            let! o := lift (set_value o v) in
            let! _ := store a o in
            assign_slices params x optimizable_only (idx + len_p)
      end
  end.

Definition update_params (params : list entry) (x : PyVal)
    (optimizable_only : bool) : M unit :=
  let! idx := assign_slices params x optimizable_only 0 in
  let! n := lift (py_len x) in
  py_assert (idx =? n).

(* ===================================================================== *)
(** * The end-to-end scenario *)
(* ===================================================================== *)

Module Scenario.

(** What [VectorParameter([1, 2, 3])] constructs. *)
Definition vec123 : ParameterObj :=
  Parameter_init VectorParameter_cls (VArr [1; 2; 3]%float) true None.

(** Two optimizable scalars, one optimizable vector, one fixed scalar. *)
Definition objects : list ParameterObj :=
  [ ScalarParameter_init (VFloat 2) true None;
    ScalarParameter_init (VFloat (-1)) true None;
    vec123;
    ScalarParameter_init (VFloat 5) false None ].

Definition params : list entry := [Ref 0; Ref 1; Ref 2; Ref 3].

Definition w0 : world := {| heap := objects; warned := [] |}.

Definition x9 : PyVal := VArr [9; -9; 7; 8; 9]%float.

(** The same vector, one element short. *)
Definition x9_short : PyVal := VArr [9; -9; 7; 8]%float.

(** A scalar whose value is produced on demand. *)
Definition lazy5 : ParameterObj :=
  ScalarParameter_init (VCallable (fun _ => VFloat 5)) true None.

Definition w_lazy : world := {| heap := [lazy5]; warned := [] |}.

(** [ScalarParameter()]: no value yet. *)
Definition w_unset : world :=
  {| heap := [ScalarParameter_init VNone true None]; warned := [] |}.

(** A Parameter holding an empty array, next to a scalar. *)
Definition empty : ParameterObj :=
  Parameter_init Parameter_cls (VArr []) true None.

Definition w_empty : world :=
  {| heap := [empty; ScalarParameter_init (VFloat 2) true None];
     warned := [] |}.

(** A collection with a placeholder between two Parameters. *)
Definition params_placeholder : list entry :=
  [Ref 0; Other VNone; Ref 1].

End Scenario.

(* ===================================================================== *)
(** * The calibration driver ([examples/needles/util.py]) *)
(* ===================================================================== *)

(** The attributes of a geometry the driver reads. *)
Inductive geom_attr_name := source | detector | roll | pitch | yaw.

(** What the driver uses from outside this code ([cate.xray],
    [scipy.optimize], [numpy.testing], [copy], printing and plotting).
    Each collaborator is an arbitrary computation over the codec's world
    and a state [ext] of its own, and may raise. *)
Class Collaborators := {
  ext : Type;
  Geom : Type;
  Markers : Type;
  Data : Type;
  Problem : Type;
  Solution : Type;
  deepcopy : list Geom -> Eff (world * ext) (list Geom);
  XrayOptimizationProblem :
    Markers -> list Geom -> Data -> Eff (world * ext) Problem;
  problem_params : Problem -> Eff (world * ext) (list entry);
  problem_bounds : Problem -> Eff (world * ext) (PyVal * PyVal);
  least_squares :
    Problem -> PyVal -> PyVal * PyVal -> Eff (world * ext) Solution;
  problem_update :
    Problem -> Solution -> Eff (world * ext) (list Geom * Markers);
  np_set_printoptions : Eff (world * ext) unit;
  print_header : nat -> Eff (world * ext) unit;
  print_line : geom_attr_name -> PyVal -> PyVal -> Eff (world * ext) unit;
  getattr : Geom -> geom_attr_name -> Eff (world * ext) PyVal;
  assert_almost_equal : PyVal -> PyVal -> nat -> Eff (world * ext) unit;
  plot_detectors : list Geom -> Markers -> Data -> Eff (world * ext) unit;
  markers_from_leastsquares_intersection :
    list Geom -> Data -> bool -> bool -> Eff (world * ext) Markers
}.

(** The two calls made by each pass of the driver's loop. *)
Inductive phase := Triangulate | Calibrate.


(** How a call ended. *)
Inductive outcome := Returned | Raised (e : exn).

Definition outcome_of {A} (r : result A) : outcome :=
  match r with
  | Ok _ => Returned
  | Raise e => Raised e
  end.

(** Calls that have all returned. *)
Definition returned (cs : list phase) : list (phase * outcome) :=
  map (fun c => (c, Returned)) cs.

(** Run a codec computation inside the driver's state. *)
Definition on_world {X A} (m : M A) : Eff (world * X) A :=
  fun s => let (w, r) := m (fst s) in ((w, snd s), r).

Section Driver.
Context `{C : Collaborators}.

(** One line of the verbose report. *)
Definition report_attr (n : geom_attr_name) (g1 g2 : Geom)
    : Eff (world * ext) unit :=
  let! v1 := getattr g1 n in
  let! v2 := getattr g2 n in
  print_line n v1 v2.

Fixpoint report (i : nat) (gs : list (Geom * Geom)) : Eff (world * ext) unit :=
  match gs with
  | [] => ret tt
  | (g1, g2) :: gs =>
      let! _ := print_header i in
      let! _ := report_attr source g1 g2 in
      let! _ := report_attr detector g1 g2 in
      let! _ := report_attr roll g1 g2 in
      let! _ := report_attr pitch g1 g2 in
      let! _ := report_attr yaw g1 g2 in
      report (S i) gs
  end.

(** [np.testing.assert_almost_equal(g1.n, g2.n, decimal_accuracy)]. *)
Definition check_attr (n : geom_attr_name) (g1 g2 : Geom)
    (decimal_accuracy : nat) : Eff (world * ext) unit :=
  let! v1 := getattr g1 n in
  let! v2 := getattr g2 n in
  assert_almost_equal v1 v2 decimal_accuracy.

(** The body of the [try] in the validation loop. *)
Definition compare_geoms (g1 g2 : Geom) : Eff (world * ext) unit :=
  let decimal_accuracy := 3 in
  let! _ := check_attr source g1 g2 decimal_accuracy in
  let! _ := check_attr detector g1 g2 decimal_accuracy in
  let! _ := check_attr roll g1 g2 decimal_accuracy in
  let! _ := check_attr pitch g1 g2 decimal_accuracy in
  check_attr yaw g1 g2 decimal_accuracy.

(** The validation loop of [run_calibration]:
    [for i, (g1, g2) in enumerate(zip(...)): try: ... except: pass]. *)
Fixpoint validation_comparison (gs : list (Geom * Geom))
    : Eff (world * ext) unit :=
  match gs with
  | [] => ret tt
  | (g1, g2) :: gs =>
      let! _ := try_except (compare_geoms g1 g2) (fun _ => ret tt) in
      validation_comparison gs
  end.

Definition run_calibration (geoms : list Geom) (markers : Markers)
    (data : Data) (plot_dets verbose : bool) : Eff (world * ext) unit :=
  let! geoms_initial := deepcopy geoms in
  let! problem := XrayOptimizationProblem markers geoms data in
  let! ps := problem_params problem in
  let! x0 := on_world (params2ndarray ps true "value") in
  let! bounds := problem_bounds problem in
  let! r := least_squares problem x0 bounds in
  let! (geoms_calibrated, markers_calibrated) := problem_update problem r in
  let! _ := np_set_printoptions in
  let! _ := (if verbose then report 0 (zip geoms_initial geoms_calibrated)
             else ret tt) in
  let! _ := validation_comparison (zip geoms_initial geoms_calibrated) in
  if plot_dets then plot_detectors geoms markers data else ret tt.

(** The driver's state: the Python state and, as a record of what was
    invoked, the calls made so far, each with how it ended. *)
Record session := mkSession {
  py : world * ext;
  calls : list (phase * outcome)
}.

Definition invoke {A} (c : phase) (m : Eff (world * ext) A) : Eff session A :=
  fun s =>
    let (w, r) := m (py s) in
    ({| py := w; calls := calls s ++ [(c, outcome_of r)] |}, r).

(** [for i in range(n)]: the loop state is the variable [markers],
    unbound before the first pass. *)
Fixpoint marker_loop (n : nat) (geoms : list Geom) (data : Data)
    (markers : option Markers) : Eff session (option Markers) :=
  match n with
  | 0 => ret markers
  | S n =>
      let! markers := invoke Triangulate
        (markers_from_leastsquares_intersection geoms data false false) in
      let! _ := invoke Calibrate
        (run_calibration geoms markers data false false) in
      marker_loop n geoms data (Some markers)
  end.

Definition run_initial_marker_optimization (geoms : list Geom)
    (data : Data) (nr_iters : Z) : Eff session Markers :=
  let! _ := py_assert (0 <? nr_iters)%Z in
  let! markers := marker_loop (Z.to_nat nr_iters) geoms data None in
  match markers with
  | Some markers => ret markers
  | None => raise (OtherException "UnboundLocalError")
  end.

End Driver.

(* ===================================================================== *)
(** * Notions used to state the properties *)
(* ===================================================================== *)

(** The floats a concrete value holds, in order; [None] for a value that
    holds none (nothing, a producer, an exception, an [int] or a
    boolean). *)
Definition numeric (v : PyVal) : option (list float) :=
  match v with
  | VFloat x => Some [x]
  | VArr xs | VList xs => Some xs
  | _ => None
  end.

(** A stored value is concrete and has the shape its class asks for: one
    number for a scalar, three for a vector, at least one otherwise. *)
Definition shape_valid (o : ParameterObj) : bool :=
  match numeric (_value o) with
  | Some xs =>
      match klass o with
      | ScalarParameter_cls => length xs =? 1
      | VectorParameter_cls => length xs =? 3
      | Parameter_cls => negb (length xs =? 0)
      end
  | None => false
  end.

(** The representation the setters leave behind: a plain number in a
    scalar parameter, an ndarray in the others. *)
Definition canonical (o : ParameterObj) : bool :=
  match klass o, _value o with
  | ScalarParameter_cls, VFloat _ => true
  | ScalarParameter_cls, _ => false
  | _, VArr _ => true
  | _, _ => false
  end.

(** The object with its value in that representation: same numbers. *)
Definition settled_value (c : cls) (v : PyVal) : PyVal :=
  match c, numeric v with
  | ScalarParameter_cls, Some [x] => VFloat x
  | ScalarParameter_cls, _ => v
  | _, Some xs => VArr xs
  | _, None => v
  end.

Definition settle (o : ParameterObj) : ParameterObj :=
  with_value o (settled_value (klass o) (_value o)).

(** What a round trip may do to an object: nothing, or, for an included
    shape-valid one, store its own numbers again. *)
Definition restored (o o' : ParameterObj) : Prop :=
  o' = o \/ (optimize o = true /\ shape_valid o = true /\ o' = settle o).

(** The entry is a Parameter that the walk does not skip. *)
Definition included (h : list ParameterObj) (optimizable_only : bool)
    (p : entry) : option (nat * ParameterObj) :=
  match as_Parameter h p with
  | Some (a, o) => if excluded optimizable_only o then None else Some (a, o)
  | None => None
  end.

(** The sum of the lengths of the included entries, as [len] reports them
    in heap [h]. *)
Fixpoint expected_length (h : list ParameterObj) (params : list entry)
    (optimizable_only : bool) : result nat :=
  match params with
  | [] => Ok 0
  | p :: params =>
      match included h optimizable_only p with
      | None => expected_length h params optimizable_only
      | Some (_, o) =>
          match Parameter_len o with
          | Raise e => Raise e
          | Ok n =>
              match expected_length h params optimizable_only with
              | Raise e => Raise e
              | Ok m => Ok (n + m)
              end
          end
      end
  end.

(** The numbers of the included entries, concatenated in collection
    order. *)
Fixpoint packed_values (h : list ParameterObj) (params : list entry)
    (optimizable_only : bool) : list float :=
  match params with
  | [] => []
  | p :: params =>
      match included h optimizable_only p with
      | None => packed_values h params optimizable_only
      | Some (_, o) =>
          default [] (numeric (_value o))
            ++ packed_values h params optimizable_only
      end
  end.

(** Every included entry of the collection is shape-valid. *)
Definition collection_valid (h : list ParameterObj) (params : list entry)
    : bool :=
  forallb (fun p => match included h true p with
                    | Some (_, o) => shape_valid o
                    | None => true
                    end) params.

(** How an object after a round trip relates to the object before it. *)
Definition same_Parameter (o o' : ParameterObj) : Prop :=
  klass o' = klass o /\ optimize o' = optimize o /\ _bounds o' = _bounds o
  /\ _value_original o' = _value_original o
  /\ numeric (Parameter_value o') = numeric (Parameter_value o)
  /\ (canonical o = true -> o' = o)
  /\ (optimize o = false -> o' = o).

Definition isParameter (h : list ParameterObj) (p : entry) : bool :=
  match as_Parameter h p with Some _ => true | None => false end.

(** The collection without its non-Parameter entries. *)
Definition Parameters_only (h : list ParameterObj) (params : list entry)
    : list entry :=
  List.filter (isParameter h) params.

Definition count_others (h : list ParameterObj) (params : list entry) : nat :=
  length (List.filter (fun p => negb (isParameter h p)) params).

(** The world after [k] more warnings about non-Parameter entries. *)
Definition add_warnings (k : nat) (w : world) : world :=
  {| heap := heap w; warned := warned w ++ replicate k not_a_Parameter |}.

Definition known_key (key : string) : bool :=
  ((key =? "value") || (key =? "min_bound") || (key =? "max_bound"))%string.

(** A value [ScalarParameter] accepts without complaint according to the
    documentation: one number, or an array holding one. *)
Definition single_number (v : PyVal) : bool :=
  match v with
  | VFloat _ | VInt _ => true
  | VArr [_] => true
  | _ => false
  end.

(* ===================================================================== *)
(** * A small rig to run the driver on *)
(* ===================================================================== *)

Module Rig.

(** [10**n]. *)
Fixpoint pow10 (n : nat) : float :=
  match n with
  | 0 => 1%float
  | S n => PrimFloat.mul 10 (pow10 n)
  end.

Definition tolerance (decimal : nat) : float :=
  PrimFloat.mul 1.5 (PrimFloat.div 1 (pow10 decimal)).

(** Two numbers pass when [abs(desired - actual) < 1.5 * 10**(-decimal)];
    when one of them is not finite, when both are [nan] or they are
    equal. *)
Definition close (decimal : nat) (actual desired : float) : bool :=
  if is_finite actual && is_finite desired
  then PrimFloat.ltb (abs (PrimFloat.sub desired actual)) (tolerance decimal)
  else (is_nan actual && is_nan desired) || PrimFloat.eqb actual desired.

Fixpoint all_close (decimal : nat) (xs ys : list float) : bool :=
  match xs, ys with
  | [], [] => true
  | x :: xs, y :: ys => close decimal x y && all_close decimal xs ys
  | _, _ => false
  end.

(** The rig's comparison of two floats, or of two sequences of floats of
    the same length, in the manner of [assert_almost_equal]. *)
Definition almost_equal (actual desired : PyVal) (decimal : nat)
    : result unit :=
  match numeric actual, numeric desired with
  | Some xs, Some ys =>
      if all_close decimal xs ys then Ok tt else Raise AssertionError
  | _, _ => Raise TypeError
  end.

(** Geometries are plain attribute tables; the solver hands back its
    starting point; nothing is printed or plotted. *)
Definition rig : Collaborators := {|
  ext := unit;
  Geom := geom_attr_name -> PyVal;
  Markers := list PyVal;
  Data := unit;
  Problem := list (geom_attr_name -> PyVal);
  Solution := PyVal;
  deepcopy := fun gs => ret gs;
  XrayOptimizationProblem := fun _ gs _ => ret gs;
  problem_params := fun _ => ret [];
  problem_bounds := fun _ => ret (VList [], VList []);
  least_squares := fun _ x0 _ => ret x0;
  problem_update := fun gs _ => ret (gs, []);
  np_set_printoptions := ret tt;
  print_header := fun _ => ret tt;
  print_line := fun _ _ _ => ret tt;
  getattr := fun g n => ret (g n);
  assert_almost_equal := fun a b d => lift (almost_equal a b d);
  plot_detectors := fun _ _ _ => ret tt;
  markers_from_leastsquares_intersection := fun _ _ _ _ => ret []
|}.

Definition geom_at (x : float) : geom_attr_name -> PyVal :=
  fun n =>
    match n with
    | source => VArr [x; 0; 0]
    | detector => VArr [0; 1; 0]
    | _ => VFloat 0
    end%float.

Definition start : world * unit := ({| heap := []; warned := [] |}, tt).

End Rig.

(* ===================================================================== *)
(** * Further notions, for the properties beyond the round trip *)
(* ===================================================================== *)

(** The [bounds] setter: [p.bounds = bounds], nothing checked. *)
Definition Parameter_set_bounds (p : ParameterObj)
    (bounds : option (PyVal * PyVal)) : ParameterObj :=
  {| klass := klass p; _value := _value p;
     _value_original := _value_original p;
     optimize := optimize p; _bounds := bounds |}.

(** The addresses the walk assigns to, in collection order. *)
Fixpoint included_addrs (h : list ParameterObj) (params : list entry)
    (optimizable_only : bool) : list nat :=
  match params with
  | [] => []
  | p :: params =>
      match included h optimizable_only p with
      | Some (a, _) => a :: included_addrs h params optimizable_only
      | None => included_addrs h params optimizable_only
      end
  end.

(** Nothing in the collection is included. *)
Definition none_included (h : list ParameterObj) (params : list entry)
    (optimizable_only : bool) : bool :=
  forallb (fun p => match included h optimizable_only p with
                    | None => true
                    | Some _ => false
                    end) params.

(** No included entry has explicit bounds. *)
Definition unbounded (h : list ParameterObj) (params : list entry)
    (optimizable_only : bool) : bool :=
  forallb (fun p => match included h optimizable_only p with
                    | Some (_, o) =>
                        match _bounds o with None => true | Some _ => false end
                    | None => true
                    end) params.

(** Everything about an object but its current value. *)
Definition same_attributes (o o' : ParameterObj) : Prop :=
  klass o' = klass o /\ optimize o' = optimize o /\ _bounds o' = _bounds o
  /\ _value_original o' = _value_original o.

(** The object occupies as many slots as before. *)
Definition same_length (o o' : ParameterObj) : Prop :=
  Parameter_len o' = Parameter_len o.

(** The heap with the object at [a] replaced. *)
Definition with_object (a : nat) (o : ParameterObj) (w : world) : world :=
  {| heap := <[a := o]> (heap w); warned := warned w |}.

(** The part of [run_calibration] before the solver is called: the
    backup, the problem, and the solver's starting point and bounds. *)
Definition solver_input `{C : Collaborators} (geoms : list Geom)
    (markers : Markers) (data : Data)
    : Eff (world * ext) (list Geom * Problem * PyVal * (PyVal * PyVal)) :=
  let! geoms_initial := deepcopy geoms in
  let! problem := XrayOptimizationProblem markers geoms data in
  let! ps := problem_params problem in
  let! x0 := on_world (params2ndarray ps true "value") in
  let! bounds := problem_bounds problem in
  ret (geoms_initial, problem, x0, bounds).

(** One pass of the driver's loop, handing back its markers. *)
Definition one_pass `{C : Collaborators} (geoms : list Geom) (data : Data)
    : Eff session Markers :=
  let! markers := invoke Triangulate
    (markers_from_leastsquares_intersection geoms data false false) in
  let! _ := invoke Calibrate
    (run_calibration geoms markers data false false) in
  ret markers.

(** The same collaborators with another solver. *)
Definition with_solver (C : Collaborators)
    (solve : @Problem C -> PyVal -> PyVal * PyVal
             -> Eff (world * @ext C) (@Solution C)) : Collaborators :=
  {| ext := @ext C; Geom := @Geom C; Markers := @Markers C;
     Data := @Data C; Problem := @Problem C; Solution := @Solution C;
     deepcopy := @deepcopy C;
     XrayOptimizationProblem := @XrayOptimizationProblem C;
     problem_params := @problem_params C;
     problem_bounds := @problem_bounds C;
     least_squares := solve;
     problem_update := @problem_update C;
     np_set_printoptions := @np_set_printoptions C;
     print_header := @print_header C;
     print_line := @print_line C;
     getattr := @getattr C;
     assert_almost_equal := @assert_almost_equal C;
     plot_detectors := @plot_detectors C;
     markers_from_leastsquares_intersection :=
       @markers_from_leastsquares_intersection C |}.

(** The rig with a solver that gives up. *)
Definition stalled_rig : Collaborators :=
  with_solver Rig.rig
    (fun _ _ _ => raise (OtherException "RuntimeError")).




(* ===================================================================== *)
(** * The Reflex helpers of [examples/needles/util.py] *)
(* ===================================================================== *)

(** [x[i]] on a sequence of numbers. *)
Definition getitem (x : PyVal) (i : nat) : result float :=
  match x with
  | VArr xs | VList xs =>
      match xs !! i with
      | Some v => Ok v
      | None => Raise (OtherException "IndexError")
      end
  | _ => Raise TypeError
  end.

(** [2 * np.pi]. *)
Definition two_pi : float := PrimFloat.mul 2 0x1.921fb54442d18p+1.

(** [0 <= a <= 2 * np.pi]. *)
Definition angle_ok (a : float) : bool :=
  PrimFloat.leb 0 a && PrimFloat.leb a two_pi.

(** A Python [dict] with numbered keys, in insertion order. *)
Definition dict (V : Type) : Type := list (nat * V).

(** [l[i]]. *)
Fixpoint dict_get {V : Type} (l : dict V) (i : nat) : result V :=
  match l with
  | [] => Raise (OtherException "KeyError")
  | (k, v) :: l => if k =? i then Ok v else dict_get l i
  end.

(** [sorted(l)]: the keys, in increasing order. *)
Definition sorted_keys {V : Type} (l : dict V) : list nat :=
  merge_sort le (l.*1).

(** [[l[i] for i in keys]]. *)
Fixpoint values_at {V : Type} (l : dict V) (keys : list nat)
    : result (list V) :=
  match keys with
  | [] => Ok []
  | i :: keys =>
      match dict_get l i with
      | Raise e => Raise e
      | Ok v =>
          match values_at l keys with
          | Raise e => Raise e
          | Ok vs => Ok (v :: vs)
          end
      end
  end.

(** [[l[i] for i in sorted(l)]], the row of one projection. *)
Definition ordered_locations {V : Type} (l : dict V) : result (list V) :=
  values_at l (sorted_keys l).

(** The vectors of a geometry that [geom2astravec] reads. *)
Inductive vector_name := g_source | g_detector | g_u | g_v.

(** What these helpers use from outside this code: the [reflex] package
    and its [reco] module, [cate.annotate], the geometry objects of
    [cate.xray] and [numpy].  [outside] is the state they work on (files,
    GPU memory, windows). *)
Class Reflex := {
  outside : Type;
  Settings : Type;
  Circular : Type;
  FlexGeometry : Type;
  StaticGeometry : Type;
  DetectorProps : Type;
  Reconstruction : Type;
  Vectors : Type;
  Sinogram : Type;
  SinoId : Type;
  ProjGeom : Type;
  ProjId : Type;
  VolId : Type;
  VolGeom : Type;
  Proj : Type;
  Locs : Type;
  Array3 : Type;
  import_reflex : Eff outside unit;
  Settings_from_path : string -> Eff outside Settings;
  circular_geometry : Settings -> list float -> Eff outside Circular;
  to_dict_items : Circular -> Eff outside (list (nat * FlexGeometry));
  centralize : FlexGeometry -> Eff outside FlexGeometry;
  StaticGeometry_of : FlexGeometry -> Eff outside StaticGeometry;
  geom_vector : StaticGeometry -> vector_name -> Eff outside PyVal;
  detector_props : StaticGeometry -> Eff outside DetectorProps;
  pixel_width : DetectorProps -> Eff outside float;
  pixel_height : DetectorProps -> Eff outside float;
  import_reco : Eff outside unit;
  Reconstruction_open : string -> list nat -> Eff outside Reconstruction;
  rec_detector : Reconstruction -> Eff outside DetectorProps;
  rec_geom : Reconstruction -> option (list float) -> Eff outside Vectors;
  np_array_vectors : list (list float) -> Eff outside Vectors;
  sino_gpu_and_proj_geom :
    Reconstruction -> float -> Vectors -> DetectorProps
    -> Eff outside (SinoId * ProjGeom);
  rec_forward :
    Reconstruction -> VolId -> VolGeom -> ProjGeom -> Eff outside ProjId;
  load_sinogram : Reconstruction -> Eff outside Sinogram;
  rec_sinogram : Reconstruction -> ProjId -> Eff outside Sinogram;
  subtract : Sinogram -> Sinogram -> Eff outside Sinogram;
  reflex_projs : string -> list nat -> Eff outside (list Proj);
  EntityLocations : string -> nat -> Eff outside Locs;
  Manager : Locs -> Proj -> Eff outside unit;
  locations : Locs -> Eff outside (dict (list float));
  np_array_data : list (list (list float)) -> Eff outside Array3
}.

Section ReflexHelpers.
Context `{R : Reflex}.

(** [for a in angles: assert 0 <= a <= 2 * np.pi]. *)
Fixpoint check_angles (angles : list float) : Eff outside unit :=
  match angles with
  | [] => ret tt
  | a :: angles =>
      let! _ := py_assert (angle_ok a) in
      check_angles angles
  end.

(** The loop over [reflex_geoms.to_dict().items()]. *)
Fixpoint centralized (items : list (nat * FlexGeometry))
    (geoms : list StaticGeometry) : Eff outside (list StaticGeometry) :=
  match items with
  | [] => ret geoms
  | (nr, rg) :: items =>
      let! rg := centralize rg in
      let! g := StaticGeometry_of rg in
      centralized items (geoms ++ [g])
  end.

Definition geoms_from_reflex (dir : string) (angles : list float)
    : Eff outside (list StaticGeometry) :=
  let! _ := import_reflex in
  let! _ := check_angles angles in
  let! sett := Settings_from_path dir in
  let! reflex_geoms := circular_geometry sett angles in
  let! items := to_dict_items reflex_geoms in
  centralized items [].

(** [c = lambda x: (x[1], x[0], x[2])]. *)
Definition swap_xy (x : PyVal) : result (list float) :=
  match getitem x 1 with
  | Raise e => Raise e
  | Ok x1 =>
      match getitem x 0 with
      | Raise e => Raise e
      | Ok x0 =>
          match getitem x 2 with
          | Raise e => Raise e
          | Ok x2 => Ok [x1; x0; x2]
          end
      end
  end.

(** [np.array((-x[1], -x[0], x[2])) * scale]. *)
Definition flip_xy (x : PyVal) : result (list float) :=
  match getitem x 1 with
  | Raise e => Raise e
  | Ok x1 =>
      match getitem x 0 with
      | Raise e => Raise e
      | Ok x0 =>
          match getitem x 2 with
          | Raise e => Raise e
          | Ok x2 => Ok [PrimFloat.opp x1; PrimFloat.opp x0; x2]
          end
      end
  end.

Definition scaled (xs : list float) (scale : float) : list float :=
  map (fun x => PrimFloat.mul x scale) xs.

Definition geom2astravec (g : StaticGeometry) : Eff outside (list float) :=
  let! src := geom_vector g g_source in
  let! c1 := lift (swap_xy src) in
  let! det := geom_vector g g_detector in
  let! c2 := lift (swap_xy det) in
  let! u := geom_vector g g_u in
  let! du := lift (flip_xy u) in
  let! props := detector_props g in
  let! width := pixel_width props in
  let! v := geom_vector g g_v in
  let! ev := lift (flip_xy v) in
  let! props := detector_props g in
  let! height := pixel_height props in
  ret (c1 ++ c2 ++ scaled du width ++ scaled ev height).

(** [[geom2astravec(g) for g in geoms]]. *)
Fixpoint astravecs (geoms : list StaticGeometry)
    : Eff outside (list (list float)) :=
  match geoms with
  | [] => ret []
  | g :: geoms =>
      let! v := geom2astravec g in
      let! vs := astravecs geoms in
      ret (v :: vs)
  end.

Definition astra_residual (projs_path : string) (nrs : list nat)
    (vol_id : VolId) (vol_geom : VolGeom) (angles : option (list float))
    (geoms : option (list StaticGeometry)) : Eff outside Sinogram :=
  let! _ := import_reco in
  let! rec := Reconstruction_open projs_path nrs in
  let! (det, vectors) :=
    match geoms with
    | None =>
        match angles with
        | None => raise ValueError
        | Some _ =>
            let! det := rec_detector rec in
            let! vectors := rec_geom rec angles in
            ret (det, vectors)
        end
    | Some gs =>
        let! det :=
          match gs with
          | g :: _ => detector_props g
          | [] => raise (OtherException "IndexError")
          end in
        let! vs := astravecs gs in
        let! vectors := np_array_vectors vs in
        ret (det, vectors)
    end in
  let! (sino_id, proj_geom) :=
    sino_gpu_and_proj_geom rec 0%float vectors det in
  let! proj_id := rec_forward rec vol_id vol_geom proj_geom in
  let! loaded := load_sinogram rec in
  let! projected := rec_sinogram rec proj_id in
  subtract loaded projected.

(** The first loop of [needle_data_from_reflex]. *)
Fixpoint open_managers (fname : string) (pairs : list (nat * Proj))
    : Eff outside unit :=
  match pairs with
  | [] => ret tt
  | (nr, proj) :: pairs =>
      let! loc := EntityLocations fname nr in
      let! _ := Manager loc proj in
      open_managers fname pairs
  end.

(** Its second loop; the loop state is [data]. *)
Fixpoint read_locations (fname : string) (pairs : list (nat * Proj))
    (data : list (list (list float))) : Eff outside (list (list (list float))) :=
  match pairs with
  | [] => ret data
  | (nr, proj) :: pairs =>
      let! loc := EntityLocations fname nr in
      let! l := locations loc in
      let! l := lift (ordered_locations l) in
      read_locations fname pairs (data ++ [l])
  end.

Definition needle_data_from_reflex (dir : string) (nrs : list nat)
    (fname : string) (open_manager : bool) : Eff outside Array3 :=
  let! _ := import_reflex in
  let! projs := reflex_projs dir nrs in
  let! _ := (if open_manager then open_managers fname (zip nrs projs)
             else ret tt) in
  let! data := read_locations fname (zip nrs projs) [] in
  np_array_data data.

End ReflexHelpers.

(** A stand-in for the Reflex world: two geometries on disk, annotations
    stored out of order, everything else trivial. *)
Module Bench.

Definition annotations : dict (list float) :=
  [(7, [70; 71]%float); (2, [20; 21]%float); (5, [50; 51]%float)].

Definition bench : Reflex := {|
  outside := list string;
  Settings := unit;
  Circular := list float;
  FlexGeometry := float;
  StaticGeometry := float;
  DetectorProps := unit;
  Reconstruction := unit;
  Vectors := list (list float);
  Sinogram := unit;
  SinoId := unit;
  ProjGeom := unit;
  ProjId := unit;
  VolId := unit;
  VolGeom := unit;
  Proj := unit;
  Locs := nat;
  Array3 := list (list (list float));
  import_reflex := ret tt;
  Settings_from_path := fun dir log => (log ++ [dir], Ok tt);
  circular_geometry := fun _ angles => ret angles;
  to_dict_items := fun angles => ret (imap (fun i a => (i, a)) angles);
  centralize := fun rg => ret rg;
  StaticGeometry_of := fun rg => ret rg;
  geom_vector := fun g _ => ret (VArr [g; 1; 2]%float);
  detector_props := fun _ => ret tt;
  pixel_width := fun _ => ret 1%float;
  pixel_height := fun _ => ret 1%float;
  import_reco := ret tt;
  Reconstruction_open := fun path _ log => (log ++ [path], Ok tt);
  rec_detector := fun _ => ret tt;
  rec_geom := fun _ _ => ret [];
  np_array_vectors := fun vs => ret vs;
  sino_gpu_and_proj_geom := fun _ _ _ _ => ret (tt, tt);
  rec_forward := fun _ _ _ _ => ret tt;
  load_sinogram := fun _ => ret tt;
  rec_sinogram := fun _ _ => ret tt;
  subtract := fun _ _ => ret tt;
  reflex_projs := fun _ nrs => ret (map (fun _ => tt) nrs);
  EntityLocations := fun _ nr => ret nr;
  Manager := fun _ _ => ret tt;
  locations := fun _ => ret annotations;
  np_array_data := fun data => ret data
|}.

End Bench.

(* ===================================================================== *)
(** * Properties of the [Parameter] classes *)
(* ===================================================================== *)

Lemma Parameter_len_error (o : ParameterObj) (e : exn) :
  Parameter_len o = Raise e -> e = TypeError.
Proof.
  unfold Parameter_len.
  destruct (_value o); simpl; congruence.
Qed.

Lemma Parameter_len_callable (o : ParameterObj) :
  callable (_value o) = true -> Parameter_len o = Raise TypeError.
Proof.
  unfold Parameter_len.
  by destruct (_value o).
Qed.

(** C5, as the code has it: assigning nothing ([None]) is let through; a
    one-element array is stored as the plain number it holds, which the
    getter hands back; an array of any other size is rejected by
    [.item()]; any other value is stored as it is, and handed back by the
    getter, exactly when [np.isscalar] accepts it (a float, but also an
    [int] or a boolean), and raises [TypeError] otherwise. *)
Theorem ScalarParameter_set_value_spec (p : ParameterObj) (v : PyVal) :
  match v with
  | VNone => ScalarParameter_set_value p v = Ok (with_value p VNone)
  | VArr [x] =>
      ScalarParameter_set_value p v = Ok (with_value p (VFloat x))
      /\ Parameter_value (with_value p (VFloat x)) = VFloat x
  | VArr _ => ScalarParameter_set_value p v = Raise ValueError
  | _ =>
      if np_isscalar v
      then ScalarParameter_set_value p v = Ok (with_value p v)
           /\ Parameter_value (with_value p v) = v
      else ScalarParameter_set_value p v = Raise TypeError
  end.
Proof.
  destruct v as [ | x | xs | xs | f | e | e | num | flag ]; try done.
  destruct xs as [ | x [ | y xs ] ]; done.
Qed.

(** C5, as stated, fails: [None] is neither a number nor a one-element
    array, and assigning it raises nothing. *)
Lemma ScalarParameter_accepts_None :
  single_number VNone = false
  /\ ScalarParameter_set_value (ScalarParameter_init (VFloat 1) true None) VNone
     = Ok {| klass := ScalarParameter_cls; _value := VNone;
             _value_original := VFloat 1;
             optimize := true; _bounds := None |}
  /\ ScalarParameter_set_value (ScalarParameter_init (VFloat 1) true None) VNone
     <> Raise TypeError.
Proof. by repeat split. Qed.

(** C6: [VectorParameter(value)] succeeds exactly for an array, or a list
    converted to one, of length 3; another length raises [ValueError], a
    value that is neither an array nor a list raises [TypeError]. *)
Theorem VectorParameter_init_spec (v : PyVal) (opt : bool)
    (b : option (PyVal * PyVal)) :
  (is_Ok (VectorParameter_init v opt b) = true
     <-> exists xs, (v = VArr xs \/ v = VList xs) /\ length xs = 3)
  /\ (forall xs, v = VArr xs \/ v = VList xs -> length xs = 3 ->
        VectorParameter_init v opt b
        = Ok (Parameter_init VectorParameter_cls (VArr xs) opt b))
  /\ (forall xs, v = VArr xs \/ v = VList xs -> length xs <> 3 ->
        VectorParameter_init v opt b = Raise ValueError)
  /\ (is_ndarray v = false -> is_list v = false ->
        VectorParameter_init v opt b = Raise TypeError).
Proof.
  assert (Hseq : forall xs, v = VArr xs \/ v = VList xs ->
            VectorParameter_init v opt b
            = if length xs =? 3
              then Ok (Parameter_init VectorParameter_cls (VArr xs) opt b)
              else Raise ValueError).
  { intros xs [-> | ->]; unfold VectorParameter_init, np_array; simpl;
      by destruct (length xs =? 3). }
  split; [ split | split; [ | split ] ].
  - destruct v as [ | x | xs | xs | f | e | e | num | flag ]; try done.
    + rewrite (Hseq xs) by auto.
      destruct (Nat.eqb_spec (length xs) 3); [ eauto | done ].
    + rewrite (Hseq xs) by auto.
      destruct (Nat.eqb_spec (length xs) 3); [ eauto | done ].
  - intros (xs & Hv & Hlen). rewrite (Hseq xs Hv).
    apply Nat.eqb_eq in Hlen. by rewrite Hlen.
  - intros xs Hv Hlen. rewrite (Hseq xs Hv).
    apply Nat.eqb_eq in Hlen. by rewrite Hlen.
  - intros xs Hv Hlen. rewrite (Hseq xs Hv).
    apply Nat.eqb_neq in Hlen. by rewrite Hlen.
  - by destruct v.
Qed.

Lemma VectorParameter_init_spec_witness :
  VectorParameter_init (VList [1; 2; 3]%float) true None
    = Ok (Parameter_init VectorParameter_cls (VArr [1; 2; 3]%float) true None)
  /\ VectorParameter_init (VArr [1; 2]%float) true None = Raise ValueError
  /\ VectorParameter_init (VList [1; 2; 3; 4]%float) true None = Raise ValueError
  /\ VectorParameter_init (VFloat 1) true None = Raise TypeError.
Proof.
  split; [ | split; [ | split ] ].
  - apply (VectorParameter_init_spec (VList [1; 2; 3]%float) true None);
      [ by right | reflexivity ].
  - apply (VectorParameter_init_spec (VArr [1; 2]%float) true None)
      with (xs := [1; 2]%float); [ by left | simpl; lia ].
  - apply (VectorParameter_init_spec (VList [1; 2; 3; 4]%float) true None)
      with (xs := [1; 2; 3; 4]%float); [ by right | simpl; lia ].
  - apply (VectorParameter_init_spec (VFloat 1) true None); reflexivity.
Defined.

(* ===================================================================== *)
(** * One step of each loop of the codec *)
(* ===================================================================== *)

Lemma world_eta (w : world) : {| heap := heap w; warned := warned w |} = w.
Proof. by destruct w. Qed.

Lemma add_warnings_0 (w : world) : add_warnings 0 w = w.
Proof.
  unfold add_warnings. simpl. rewrite app_nil_r. apply world_eta.
Qed.

Lemma add_warnings_S (k : nat) (w : world) :
  add_warnings k {| heap := heap w; warned := warned w ++ [not_a_Parameter] |}
  = add_warnings (S k) w.
Proof.
  unfold add_warnings. simpl. by rewrite <- app_assoc.
Qed.

Lemma count_length_cons (p : entry) (params : list entry) (opt : bool)
    (total : nat) (w : world) :
  count_length (p :: params) opt total w =
  match as_Parameter (heap w) p with
  | None =>
      count_length params opt total
        {| heap := heap w; warned := warned w ++ [not_a_Parameter] |}
  | Some (_, o) =>
      if excluded opt o then count_length params opt total w
      else match Parameter_len o with
           | Ok n => count_length params opt (total + n) w
           | Raise e => (w, Raise e)
           end
  end.
Proof.
  simpl. unfold bind, deref, lift, warn. simpl.
  destruct (as_Parameter (heap w) p) as [[a o]|]; [ | done ].
  destruct (excluded opt o); [ done | ].
  by destruct (Parameter_len o).
Qed.

Lemma fill_cons (p : entry) (params : list entry) (opt : bool)
    (key : string) (out : buffer) (idx : nat) (w : world) :
  fill (p :: params) opt key out idx w =
  match as_Parameter (heap w) p with
  | None => fill params opt key out idx w
  | Some (_, o) =>
      if excluded opt o then fill params opt key out idx w
      else match Parameter_len o with
           | Raise e => (w, Raise e)
           | Ok len_p =>
               let write_from (store : result PyVal) :=
                 match store with
                 | Raise e => (w, Raise e)
                 | Ok store =>
                     match setslice out idx len_p store with
                     | Raise e => (w, Raise e)
                     | Ok out => fill params opt key out (idx + len_p) w
                     end
                 end in
               if (key =? "value")%string
               then write_from (Ok (Parameter_value o))
               else if (key =? "min_bound")%string
               then write_from
                      (match Parameter_bounds o with
                       | Ok b => Ok (fst b) | Raise e => Raise e end)
               else if (key =? "max_bound")%string
               then write_from
                      (match Parameter_bounds o with
                       | Ok b => Ok (snd b) | Raise e => Raise e end)
               else (w, Ok (out, idx, Some (VExcClass ValueError)))
           end
  end.
Proof.
  simpl. unfold bind, deref, lift. simpl.
  destruct (as_Parameter (heap w) p) as [[a o]|]; [ | done ].
  destruct (excluded opt o); [ done | ].
  destruct (Parameter_len o) as [len_p|e]; [ | done ].
  destruct (key =? "value")%string.
  { by destruct (setslice out idx len_p (Parameter_value o)). }
  destruct (key =? "min_bound")%string.
  { destruct (Parameter_bounds o) as [b|e]; [ | done ].
    by destruct (setslice out idx len_p b.1). }
  destruct (key =? "max_bound")%string; [ | done ].
  destruct (Parameter_bounds o) as [b|e]; [ | done ].
  by destruct (setslice out idx len_p b.2).
Qed.

Lemma assign_slices_cons (p : entry) (params : list entry) (x : PyVal)
    (opt : bool) (idx : nat) (w : world) :
  assign_slices (p :: params) x opt idx w =
  match as_Parameter (heap w) p with
  | None => assign_slices params x opt idx w
  | Some (a, o) =>
      if excluded opt o then assign_slices params x opt idx w
      else match Parameter_len o with
           | Raise e => (w, Raise e)
           | Ok len_p =>
               if len_p =? 0 then (w, Raise AssertionError)
               else match getslice x idx (idx + len_p) with
                    | Raise e => (w, Raise e)
                    | Ok v =>
                        match set_value o v with
                        | Raise e => (w, Raise e)
                        | Ok o' =>
                            assign_slices params x opt (idx + len_p)
                              {| heap := <[a := o']> (heap w);
                                 warned := warned w |}
                        end
                    end
           end
  end.
Proof.
  simpl. unfold bind, deref, lift, store, py_assert. simpl.
  destruct (as_Parameter (heap w) p) as [[a o]|]; [ | done ].
  destruct (excluded opt o); [ done | ].
  destruct (Parameter_len o) as [len_p|e]; [ | done ].
  destruct (len_p =? 0); [ done | ]. simpl.
  destruct (getslice x idx (idx + len_p)) as [v|e]; [ | done ].
  by destruct (set_value o v).
Qed.

Lemma update_params_unfold (params : list entry) (x : PyVal) (opt : bool)
    (w : world) :
  update_params params x opt w =
  match assign_slices params x opt 0 w with
  | (w', Raise e) => (w', Raise e)
  | (w', Ok idx) =>
      match py_len x with
      | Raise e => (w', Raise e)
      | Ok n => if idx =? n then (w', Ok tt) else (w', Raise AssertionError)
      end
  end.
Proof.
  unfold update_params, bind, lift, py_assert.
  destruct (assign_slices params x opt 0 w) as [w' [idx|e]]; [ | done ].
  destruct (py_len x) as [n|e]; [ | done ].
  by destruct (idx =? n).
Qed.

(** Walking a collection is walking its first part, then the rest. *)
Lemma assign_slices_app (pre post : list entry) (x : PyVal) (opt : bool)
    (idx : nat) (w : world) :
  assign_slices (pre ++ post) x opt idx w =
  match assign_slices pre x opt idx w with
  | (w', Ok idx') => assign_slices post x opt idx' w'
  | (w', Raise e) => (w', Raise e)
  end.
Proof.
  revert idx w.
  induction pre as [|p pre IH]; intros idx w; [ done | ].
  rewrite <- app_comm_cons, !assign_slices_cons.
  destruct (as_Parameter (heap w) p) as [[a o]|]; [ | apply IH ].
  destruct (excluded opt o); [ apply IH | ].
  destruct (Parameter_len o) as [len_p|e]; [ | done ].
  destruct (len_p =? 0); [ done | ].
  destruct (getslice x idx (idx + len_p)) as [v|e]; [ | done ].
  destruct (set_value o v) as [o'|e]; [ | done ].
  apply IH.
Qed.

Lemma params2ndarray_unfold (params : list entry) (opt : bool)
    (key : string) (w : world) :
  params2ndarray params opt key w =
  match count_length params opt 0 w with
  | (w', Raise e) => (w', Raise e)
  | (w', Ok total) =>
      if total =? 0 then (w', Ok (VList []))
      else match fill params opt key (np_empty total) 0 w' with
           | (w'', Raise e) => (w'', Raise e)
           | (w'', Ok (out, idx, Some v)) => (w'', Ok v)
           | (w'', Ok (out, idx, None)) =>
               if idx =? total then (w'', Ok (VArr (freeze out)))
               else (w'', Raise AssertionError)
           end
  end.
Proof.
  unfold params2ndarray, bind, py_assert.
  destruct (count_length params opt 0 w) as [w' [total|e]]; [ | done ].
  destruct (total =? 0); [ done | ].
  destruct (fill params opt key (np_empty total) 0 w')
    as [w'' [[[out idx] [v|]]|e]]; try done.
  by destruct (idx =? total).
Qed.

(* ===================================================================== *)
(** * The length pass *)
(* ===================================================================== *)

Lemma included_Some (h : list ParameterObj) (opt : bool) (p : entry)
    (a : nat) (o : ParameterObj) :
  included h opt p = Some (a, o)
  <-> as_Parameter h p = Some (a, o) /\ excluded opt o = false.
Proof.
  unfold included.
  destruct (as_Parameter h p) as [[b ob]|];
    [ | split; [ done | by intros [? _] ] ].
  destruct (excluded opt ob) eqn:Hex; split.
  - done.
  - intros [[= -> ->] Hex']. congruence.
  - by intros [= -> ->].
  - by intros [? _].
Qed.

Lemma included_None (h : list ParameterObj) (opt : bool) (p : entry) :
  included h opt p = None ->
  match as_Parameter h p with
  | Some (_, o) => excluded opt o = true
  | None => True
  end.
Proof.
  unfold included.
  destruct (as_Parameter h p) as [[a o]|]; [ | done ].
  by destruct (excluded opt o).
Qed.

Lemma packed_values_cons (h : list ParameterObj) (p : entry)
    (params : list entry) (opt : bool) :
  packed_values h (p :: params) opt
  = match included h opt p with
    | None => packed_values h params opt
    | Some (_, o) =>
        default [] (numeric (_value o)) ++ packed_values h params opt
    end.
Proof. reflexivity. Qed.

Lemma as_Parameter_Ref (h : list ParameterObj) (a : nat) (o : ParameterObj) :
  h !! a = Some o -> as_Parameter h (Ref a) = Some (a, o).
Proof. intros Ha. simpl. by rewrite Ha. Qed.

Lemma as_Parameter_Some (h : list ParameterObj) (p : entry) (a : nat)
    (o : ParameterObj) :
  as_Parameter h p = Some (a, o) -> p = Ref a /\ h !! a = Some o.
Proof.
  destruct p as [b|v]; simpl; [ | done ].
  destruct (h !! b) eqn:Hb; [ | done ].
  by intros [= -> ->].
Qed.

Lemma count_others_cons (h : list ParameterObj) (p : entry)
    (params : list entry) :
  count_others h (p :: params)
  = (if isParameter h p then 0 else 1) + count_others h params.
Proof.
  unfold count_others. simpl. by destruct (isParameter h p).
Qed.

(** When every included entry has a length, the first loop adds them up
    and warns once for each non-Parameter entry. *)
Lemma count_length_Ok (params : list entry) (opt : bool) (total : nat)
    (w : world) (n : nat) :
  expected_length (heap w) params opt = Ok n ->
  count_length params opt total w
  = (add_warnings (count_others (heap w) params) w, Ok (total + n)).
Proof.
  revert total w n.
  induction params as [|p params IH]; intros total w n Hn.
  - simpl in *. injection Hn as <-.
    unfold ret. by rewrite add_warnings_0, Nat.add_0_r.
  - rewrite count_length_cons, count_others_cons.
    simpl in Hn. unfold included, isParameter in *.
    destruct (as_Parameter (heap w) p) as [[a o]|].
    + destruct (excluded opt o); [ by apply IH | ].
      destruct (Parameter_len o) as [k|e]; [ | done ].
      destruct (expected_length (heap w) params opt) as [m|e] eqn:Hm;
        [ | done ].
      injection Hn as <-.
      rewrite (IH (total + k) w m Hm). by rewrite Nat.add_assoc.
    + rewrite (IH total
        {| heap := heap w; warned := warned w ++ [not_a_Parameter] |} n Hn).
      simpl. by rewrite add_warnings_S.
Qed.

(** Otherwise it raises what the first failing [len] raises, having
    warned about the non-Parameters met so far. *)
Lemma count_length_Raise (params : list entry) (opt : bool) (total : nat)
    (w : world) (e : exn) :
  expected_length (heap w) params opt = Raise e ->
  exists k, k <= count_others (heap w) params
    /\ count_length params opt total w = (add_warnings k w, Raise e).
Proof.
  revert total w.
  induction params as [|p params IH]; intros total w He; [ done | ].
  rewrite count_length_cons, count_others_cons.
  simpl in He. unfold included, isParameter in *.
  destruct (as_Parameter (heap w) p) as [[a o]|].
  - destruct (excluded opt o); [ by apply IH | ].
    destruct (Parameter_len o) as [k|e'].
    + destruct (expected_length (heap w) params opt) as [m|e''] eqn:Hm;
        [ done | ].
      injection He as ->. by apply IH.
    + injection He as ->. exists 0. split; [ lia | ].
      by rewrite add_warnings_0.
  - destruct (IH total
        {| heap := heap w; warned := warned w ++ [not_a_Parameter] |} He)
      as (k & Hk & Heq).
    exists (S k). simpl in *. split; [ lia | ].
    by rewrite Heq, add_warnings_S.
Qed.

Lemma expected_length_error (h : list ParameterObj) (params : list entry)
    (opt : bool) (e : exn) :
  expected_length h params opt = Raise e -> e = TypeError.
Proof.
  induction params as [|p params IH]; simpl; [ done | ].
  destruct (included h opt p) as [[a o]|]; [ | done ].
  destruct (Parameter_len o) as [k|e'] eqn:Hk.
  - destruct (expected_length h params opt); [ done | ].
    intros [= ->]. by apply IH.
  - intros [= ->]. by eapply Parameter_len_error.
Qed.

Lemma expected_length_callable (h : list ParameterObj) (params : list entry)
    (opt : bool) (a : nat) (o : ParameterObj) :
  Ref a ∈ params -> h !! a = Some o -> excluded opt o = false ->
  callable (_value o) = true ->
  expected_length h params opt = Raise TypeError.
Proof.
  intros Hin Ha Hex Hcall.
  induction params as [|p params IH]; [ by apply elem_of_nil in Hin | ].
  apply elem_of_cons in Hin as [<- | Hin].
  - simpl. unfold included. rewrite (as_Parameter_Ref _ _ _ Ha), Hex.
    by rewrite (Parameter_len_callable _ Hcall).
  - simpl. destruct (included h opt p) as [[b ob]|]; [ | by apply IH ].
    destruct (Parameter_len ob) as [k|e] eqn:Hk.
    + by rewrite (IH Hin).
    + by rewrite (Parameter_len_error _ _ Hk).
Qed.

(* ===================================================================== *)
(** * Producers have no length (C9) *)
(* ===================================================================== *)

(** An included entry without a positive length stops the update loop:
    it is still as it was when the loop first reaches it. *)
Lemma assign_slices_no_length (params : list entry) (x : PyVal) (opt : bool)
    (idx : nat) (w : world) (a : nat) (o : ParameterObj) :
  Ref a ∈ params -> heap w !! a = Some o -> excluded opt o = false ->
  (forall n, Parameter_len o = Ok n -> n = 0) ->
  exists w' e, assign_slices params x opt idx w = (w', Raise e).
Proof.
  intros Hin Ha Hex Hnolen. revert idx w Ha.
  induction params as [|p params IH]; intros idx w Ha;
    [ by apply elem_of_nil in Hin | ].
  rewrite assign_slices_cons.
  apply elem_of_cons in Hin as [<- | Hin].
  { rewrite (as_Parameter_Ref _ _ _ Ha), Hex.
    destruct (Parameter_len o) as [n|e] eqn:Hlen; [ | eauto ].
    rewrite (Hnolen n eq_refl). eauto. }
  destruct (as_Parameter (heap w) p) as [[b ob]|] eqn:Hp; [ | by apply IH ].
  destruct (excluded opt ob); [ by apply IH | ].
  destruct (Parameter_len ob) as [len_p|e] eqn:Hlen; [ | eauto ].
  destruct (Nat.eqb_spec len_p 0) as [Hz | Hnz]; [ eauto | ].
  destruct (getslice x idx (idx + len_p)) as [v|e]; [ | eauto ].
  destruct (set_value ob v) as [o'|e]; [ | eauto ].
  apply IH; [ done | ]. simpl.
  apply as_Parameter_Some in Hp as [-> Hb].
  destruct (decide (b = a)) as [-> | Hne].
  - rewrite Ha in Hb. injection Hb as <-.
    by specialize (Hnolen len_p Hlen).
  - by rewrite list_lookup_insert_ne.
Qed.

(** C9: a Parameter that stores a producer has no length, since [len]
    looks at the stored callable: [len] and the default bounds raise
    [TypeError]; [params2ndarray] raises [TypeError] on every collection
    in which such a Parameter is included, whatever the key;
    [update_params] fails on every such collection, with [TypeError] when
    the entries before that Parameter are walked without error. *)
Theorem callable_value_has_no_len (o : ParameterObj) :
  callable (_value o) = true ->
  Parameter_len o = Raise TypeError
  /\ (_bounds o = None -> Parameter_bounds o = Raise TypeError)
  /\ (forall params opt key w a,
        Ref a ∈ params -> heap w !! a = Some o -> excluded opt o = false ->
        snd (params2ndarray params opt key w) = Raise TypeError)
  /\ (forall params x opt w a,
        Ref a ∈ params -> heap w !! a = Some o -> excluded opt o = false ->
        exists e, snd (update_params params x opt w) = Raise e)
  /\ (forall pre post x opt w w' idx a,
        assign_slices pre x opt 0 w = (w', Ok idx) ->
        heap w' !! a = Some o -> excluded opt o = false ->
        update_params (pre ++ Ref a :: post) x opt w = (w', Raise TypeError)).
Proof.
  intros Hcall.
  pose proof (Parameter_len_callable o Hcall) as Hlen.
  split; [ done | ]. split; [ | split; [ | split ] ].
  - intros Hb. unfold Parameter_bounds. by rewrite Hb, Hlen.
  - intros params opt key w a Hin Ha Hex.
    rewrite params2ndarray_unfold.
    pose proof (expected_length_callable _ _ _ _ _ Hin Ha Hex Hcall) as He.
    destruct (count_length_Raise params opt 0 w _ He) as (k & _ & ->).
    done.
  - intros params x opt w a Hin Ha Hex.
    rewrite update_params_unfold.
    destruct (assign_slices_no_length params x opt 0 w a o Hin Ha Hex)
      as (w' & e & ->); [ | eauto ].
    intros n Hn. by rewrite Hlen in Hn.
  - intros pre post x opt w w' idx a Hpre Ha Hex.
    rewrite update_params_unfold, assign_slices_app, Hpre.
    rewrite assign_slices_cons.
    by rewrite (as_Parameter_Ref _ _ _ Ha), Hex, Hlen.
Qed.

Lemma callable_value_has_no_len_witness :
  callable (_value Scenario.lazy5) = true
  /\ Parameter_len Scenario.lazy5 = Raise TypeError
  /\ Parameter_bounds Scenario.lazy5 = Raise TypeError
  /\ snd (params2ndarray [Ref 0] true "value" Scenario.w_lazy) = Raise TypeError
  /\ update_params [Ref 0] (VArr [1%float]) true Scenario.w_lazy
     = (Scenario.w_lazy, Raise TypeError).
Proof.
  destruct (callable_value_has_no_len Scenario.lazy5 eq_refl)
    as (Hlen & Hbounds & Hpack & _ & Hunpack).
  split; [ reflexivity | ]. split; [ exact Hlen | ].
  split; [ exact (Hbounds eq_refl) | ].
  split.
  - apply (Hpack [Ref 0] true "value"%string Scenario.w_lazy 0);
      [ apply list_elem_of_here | reflexivity | reflexivity ].
  - apply (Hunpack [] [] (VArr [1%float]) true Scenario.w_lazy
             Scenario.w_lazy 0 0); reflexivity.
Defined.

(* ===================================================================== *)
(** * The end-to-end scenario (C3) *)
(* ===================================================================== *)

(** C3: on two optimizable scalars [2.0] and [-1.0], the optimizable
    vector [[1, 2, 3]] and the fixed scalar [5.0], packing the values
    gives [[2.0, -1.0, 1, 2, 3]], and unpacking [[9.0, -9.0, 7, 8, 9]]
    sets the first three to [9.0], [-9.0] and [[7, 8, 9]] and leaves the
    fixed scalar at [5.0]. *)
Theorem end_to_end_scenario :
  VectorParameter_init (VList [1; 2; 3]%float) true None = Ok Scenario.vec123
  /\ Forall (fun o => _bounds o = None) Scenario.objects
  /\ params2ndarray Scenario.params true "value" Scenario.w0
     = (Scenario.w0, Ok (VArr [2; -1; 1; 2; 3]%float))
  /\ exists w1,
       update_params Scenario.params Scenario.x9 true Scenario.w0
       = (w1, Ok tt)
       /\ map Parameter_value (heap w1)
          = [VFloat 9; VFloat (-9); VArr [7; 8; 9]%float; VFloat 5]
       /\ map optimize (heap w1) = [true; true; true; false]
       /\ warned w1 = [].
Proof.
  split; [ reflexivity | ].
  split; [ by repeat constructor | ].
  split; [ reflexivity | ].
  eexists. split; [ reflexivity | ].
  by repeat split.
Qed.

(* ===================================================================== *)
(** * An unknown key (C10) *)
(* ===================================================================== *)

Lemma known_key_false (key : string) :
  known_key key = false ->
  (key =? "value")%string = false
  /\ (key =? "min_bound")%string = false
  /\ (key =? "max_bound")%string = false.
Proof.
  unfold known_key. intros Hk.
  apply orb_false_iff in Hk as [Hk Hmax].
  by apply orb_false_iff in Hk as [Hval Hmin].
Qed.

Lemma fill_unknown_key (params : list entry) (opt : bool) (key : string)
    (out : buffer) (idx : nat) (w : world) (n : nat) :
  known_key key = false ->
  expected_length (heap w) params opt = Ok n -> n <> 0 ->
  fill params opt key out idx w
  = (w, Ok (out, idx, Some (VExcClass ValueError))).
Proof.
  intros (Hval & Hmin & Hmax)%known_key_false. revert n.
  induction params as [|p params IH]; intros n Hn Hpos.
  { simpl in Hn. congruence. }
  rewrite fill_cons. simpl in Hn. unfold included in Hn.
  destruct (as_Parameter (heap w) p) as [[a o]|]; [ | by eapply IH ].
  destruct (excluded opt o); [ by eapply IH | ].
  destruct (Parameter_len o) as [len_p|e]; [ | done ].
  by rewrite Hval, Hmin, Hmax.
Qed.

(** C10, as the code has it: when every included Parameter reports a
    length and the total is positive, a key other than ['value'],
    ['min_bound'] and ['max_bound'] makes [params2ndarray] return the
    [ValueError] class (nothing is raised) on reaching the first included
    entry, with no output slot written and no Parameter changed. *)
Theorem params2ndarray_unknown_key (params : list entry) (opt : bool)
    (key : string) (w : world) (n : nat) :
  known_key key = false ->
  expected_length (heap w) params opt = Ok n -> n <> 0 ->
  let w' := add_warnings (count_others (heap w) params) w in
  params2ndarray params opt key w = (w', Ok (VExcClass ValueError))
  /\ fill params opt key (np_empty n) 0 w'
     = (w', Ok (np_empty n, 0, Some (VExcClass ValueError))).
Proof.
  intros Hkey Hn Hpos w'.
  assert (Hfill : fill params opt key (np_empty n) 0 w'
                  = (w', Ok (np_empty n, 0, Some (VExcClass ValueError))))
    by (by apply (fill_unknown_key params opt key _ _ w' n)).
  split; [ | done ].
  rewrite params2ndarray_unfold, (count_length_Ok params opt 0 w n Hn).
  fold w'. simpl.
  apply Nat.eqb_neq in Hpos. by rewrite Hpos, Hfill.
Qed.

Lemma params2ndarray_unknown_key_witness :
  params2ndarray Scenario.params true "bounds" Scenario.w0
  = (Scenario.w0, Ok (VExcClass ValueError)).
Proof.
  apply (params2ndarray_unknown_key Scenario.params true "bounds"
           Scenario.w0 5); [ reflexivity | reflexivity | lia ].
Defined.

(** C10, as stated, fails: a collection holding one included
    [ScalarParameter()] whose value was never set makes [params2ndarray]
    raise [TypeError] under an unknown key, in the length pass, before the
    key is looked at. *)
Lemma params2ndarray_unknown_key_raises :
  included (heap Scenario.w_unset) true (Ref 0)
    = Some (0, ScalarParameter_init VNone true None)
  /\ known_key "bounds" = false
  /\ params2ndarray [Ref 0] true "bounds" Scenario.w_unset
     = (Scenario.w_unset, Raise TypeError).
Proof. by repeat split. Qed.

(* ===================================================================== *)
(** * Non-Parameter entries (C4) *)
(* ===================================================================== *)

Lemma isParameter_length (h h' : list ParameterObj) (p : entry) :
  length h = length h' -> isParameter h p = isParameter h' p.
Proof.
  intros Hlen. unfold isParameter. destruct p as [a|v]; simpl; [ | done ].
  destruct (h !! a) eqn:Ha, (h' !! a) eqn:Ha'; try done.
  - apply lookup_lt_Some in Ha. apply lookup_ge_None in Ha'. lia.
  - apply lookup_lt_Some in Ha'. apply lookup_ge_None in Ha. lia.
Qed.

Lemma Parameters_only_cons (h : list ParameterObj) (p : entry)
    (params : list entry) :
  Parameters_only h (p :: params)
  = if isParameter h p then p :: Parameters_only h params
    else Parameters_only h params.
Proof. reflexivity. Qed.

Lemma isParameter_as_Parameter (h : list ParameterObj) (p : entry) :
  isParameter h p = match as_Parameter h p with Some _ => true | None => false end.
Proof. reflexivity. Qed.

(** The second loop reads the heap and changes nothing. *)
Lemma fill_pure (params : list entry) (opt : bool) (key : string)
    (out : buffer) (idx : nat) (w w' : world) :
  heap w = heap w' ->
  fill params opt key out idx w = (w, snd (fill params opt key out idx w')).
Proof.
  intros Hh. revert out idx.
  induction params as [|p params IH]; intros out idx; [ done | ].
  rewrite !fill_cons, <- Hh. cbv zeta.
  destruct (as_Parameter (heap w) p) as [[a o]|]; [ | apply IH ].
  destruct (excluded opt o); [ apply IH | ].
  destruct (Parameter_len o) as [len_p|e]; [ | done ].
  destruct (key =? "value")%string.
  { destruct (setslice out idx len_p (Parameter_value o)); [ apply IH | done ]. }
  destruct (key =? "min_bound")%string.
  { destruct (Parameter_bounds o) as [b|e]; [ | done ].
    destruct (setslice out idx len_p b.1); [ apply IH | done ]. }
  destruct (key =? "max_bound")%string; [ | done ].
  destruct (Parameter_bounds o) as [b|e]; [ | done ].
  destruct (setslice out idx len_p b.2); [ apply IH | done ].
Qed.

Lemma fill_Parameters_only (params : list entry) (opt : bool) (key : string)
    (out : buffer) (idx : nat) (w : world) :
  fill (Parameters_only (heap w) params) opt key out idx w
  = fill params opt key out idx w.
Proof.
  revert out idx.
  induction params as [|p params IH]; intros out idx; [ done | ].
  rewrite Parameters_only_cons, isParameter_as_Parameter.
  destruct (as_Parameter (heap w) p) as [[a o]|] eqn:Hp.
  - rewrite !fill_cons, Hp. cbv zeta.
    destruct (excluded opt o); [ apply IH | ].
    destruct (Parameter_len o) as [len_p|e]; [ | done ].
    destruct (key =? "value")%string.
    { destruct (setslice out idx len_p (Parameter_value o)); [ apply IH | done ]. }
    destruct (key =? "min_bound")%string.
    { destruct (Parameter_bounds o) as [b|e]; [ | done ].
      destruct (setslice out idx len_p b.1); [ apply IH | done ]. }
    destruct (key =? "max_bound")%string; [ | done ].
    destruct (Parameter_bounds o) as [b|e]; [ | done ].
    destruct (setslice out idx len_p b.2); [ apply IH | done ].
  - rewrite (fill_cons p), Hp. apply IH.
Qed.

Lemma expected_length_Parameters_only (h : list ParameterObj)
    (params : list entry) (opt : bool) :
  expected_length h (Parameters_only h params) opt
  = expected_length h params opt.
Proof.
  induction params as [|p params IH]; [ done | ].
  rewrite Parameters_only_cons, isParameter_as_Parameter.
  destruct (as_Parameter h p) as [[a o]|] eqn:Hp.
  - simpl. by rewrite IH.
  - simpl. unfold included. by rewrite Hp.
Qed.

Lemma count_others_Parameters_only (h : list ParameterObj)
    (params : list entry) :
  count_others h (Parameters_only h params) = 0.
Proof.
  induction params as [|p params IH]; [ done | ].
  rewrite Parameters_only_cons.
  destruct (isParameter h p) eqn:Hp; [ | done ].
  by rewrite count_others_cons, Hp.
Qed.

(** The update loop never warns and never changes the number of objects. *)
Lemma assign_slices_frame (params : list entry) (x : PyVal) (opt : bool)
    (idx : nat) (w : world) :
  warned (fst (assign_slices params x opt idx w)) = warned w
  /\ length (heap (fst (assign_slices params x opt idx w))) = length (heap w).
Proof.
  revert idx w.
  induction params as [|p params IH]; intros idx w; [ done | ].
  rewrite assign_slices_cons.
  destruct (as_Parameter (heap w) p) as [[a o]|]; [ | apply IH ].
  destruct (excluded opt o); [ apply IH | ].
  destruct (Parameter_len o) as [len_p|e]; [ | done ].
  destruct (len_p =? 0); [ done | ].
  destruct (getslice x idx (idx + len_p)) as [v|e]; [ | done ].
  destruct (set_value o v) as [o'|e]; [ | done ].
  destruct (IH (idx + len_p)
              {| heap := <[a := o']> (heap w); warned := warned w |})
    as [Hw Hl].
  split; [ done | ].
  rewrite Hl. simpl. apply length_insert.
Qed.

Lemma assign_slices_Parameters_only (h : list ParameterObj)
    (params : list entry) (x : PyVal) (opt : bool) (idx : nat) (w : world) :
  length h = length (heap w) ->
  assign_slices (Parameters_only h params) x opt idx w
  = assign_slices params x opt idx w.
Proof.
  revert idx w.
  induction params as [|p params IH]; intros idx w Hlen; [ done | ].
  rewrite Parameters_only_cons.
  rewrite (isParameter_length h (heap w) p Hlen), isParameter_as_Parameter.
  destruct (as_Parameter (heap w) p) as [[a o]|] eqn:Hp.
  - rewrite !assign_slices_cons, Hp.
    destruct (excluded opt o); [ by apply IH | ].
    destruct (Parameter_len o) as [len_p|e]; [ | done ].
    destruct (len_p =? 0); [ done | ].
    destruct (getslice x idx (idx + len_p)) as [v|e]; [ | done ].
    destruct (set_value o v) as [o'|e]; [ | done ].
    apply IH. simpl. by rewrite length_insert.
  - rewrite (assign_slices_cons p), Hp. by apply IH.
Qed.

(** C4, as the code has it: a non-Parameter entry never changes what
    either operation computes.  [params2ndarray] gives the result it gives
    on the collection without such entries, and has warned once for each
    of them when it returns; [update_params] does exactly what it does on
    the collection without them, and issues no warning. *)
Theorem non_Parameter_entries_skipped (params : list entry) (opt : bool)
    (key : string) (x : PyVal) (w : world) :
  let clean := Parameters_only (heap w) params in
  (exists k r,
      params2ndarray params opt key w = (add_warnings k w, r)
      /\ params2ndarray clean opt key w = (w, r)
      /\ k <= count_others (heap w) params
      /\ (is_Ok r = true -> k = count_others (heap w) params))
  /\ update_params params x opt w = update_params clean x opt w
  /\ warned (fst (update_params params x opt w)) = warned w.
Proof.
  intros clean. split; [ | split ].
  - rewrite !params2ndarray_unfold.
    pose proof (expected_length_Parameters_only (heap w) params opt) as Hclean.
    pose proof (count_others_Parameters_only (heap w) params) as Hnone.
    fold clean in Hclean, Hnone.
    destruct (expected_length (heap w) params opt) as [n|e] eqn:Hn.
    + rewrite (count_length_Ok params opt 0 w n Hn).
      rewrite (count_length_Ok clean opt 0 w n Hclean), Hnone.
      rewrite add_warnings_0. simpl.
      set (c := count_others (heap w) params).
      rewrite (fill_pure params opt key (np_empty n) 0 (add_warnings c w) w)
        by done.
      unfold clean. rewrite fill_Parameters_only.
      rewrite (fill_pure params opt key (np_empty n) 0 w w) by done.
      destruct (n =? 0); [ by exists c, (Ok (VList [])) | ].
      destruct (snd (fill params opt key (np_empty n) 0 w))
        as [[[out idx] [v|]]|e]; simpl.
      * by exists c, (Ok v).
      * destruct (idx =? n); by eexists c, _.
      * by exists c, (Raise e).
    + destruct (count_length_Raise params opt 0 w e Hn) as (k & Hk & ->).
      destruct (count_length_Raise clean opt 0 w e Hclean) as (k' & Hk' & ->).
      rewrite Hnone in Hk'. assert (k' = 0) as -> by lia.
      rewrite add_warnings_0.
      by exists k, (Raise e).
  - rewrite !update_params_unfold.
    unfold clean. by rewrite assign_slices_Parameters_only.
  - rewrite update_params_unfold.
    pose proof (assign_slices_frame params x opt 0 w) as [Hw _].
    destruct (assign_slices params x opt 0 w) as [w' [idx|e]]; [ | done ].
    destruct (py_len x) as [n|e]; [ | done ].
    by destruct (idx =? n).
Qed.

(** C4, as stated, fails for [update_params]: with a placeholder between
    two Parameters it assigns both and returns, and the warning log is
    still empty, whereas [params2ndarray] has logged one warning. *)
Lemma update_params_does_not_warn :
  isParameter (heap Scenario.w0) (Other VNone) = false
  /\ warned (fst (params2ndarray Scenario.params_placeholder true "value"
                    Scenario.w0)) = [not_a_Parameter]
  /\ snd (update_params Scenario.params_placeholder (VArr [9; -9]%float)
            true Scenario.w0) = Ok tt
  /\ warned (fst (update_params Scenario.params_placeholder
                    (VArr [9; -9]%float) true Scenario.w0)) = [].
Proof. by repeat split. Qed.

(* ===================================================================== *)
(** * The validation comparison of [run_calibration] (C7) *)
(* ===================================================================== *)

(** A [try] whose bare [except] passes returns normally whatever its body
    does. *)
Lemma try_except_pass {S : Type} (body : Eff S unit) (s : S) :
  snd (try_except body (fun _ => ret tt) s) = Ok tt.
Proof.
  unfold try_except, ret.
  by destruct (body s) as [s' [[]|e]].
Qed.

(** C7: for all lists of initial and calibrated geometries, and whatever
    the attribute reads and the near-equality checks do (return, or raise
    anything), the validation comparison returns normally. *)
Theorem validation_comparison_never_raises `{C : Collaborators}
    (geoms_initial geoms_calibrated : list Geom) (s : world * ext) :
  snd (validation_comparison (zip geoms_initial geoms_calibrated) s) = Ok tt.
Proof.
  generalize (zip geoms_initial geoms_calibrated) as gs. intros gs.
  revert s.
  induction gs as [|[g1 g2] gs IH]; intros s; [ done | ].
  simpl. unfold bind.
  pose proof (try_except_pass (compare_geoms g1 g2) s) as Htry.
  destruct (try_except (compare_geoms g1 g2) (fun _ => ret tt) s)
    as [s' r].
  simpl in Htry. subst r. apply IH.
Qed.

(** On the rig, a source moved by one unit fails the comparison inside
    the [try], and the loop around it still returns. *)
Lemma rig_comparison_fails_inside :
  compare_geoms (C := Rig.rig) (Rig.geom_at 0) (Rig.geom_at 1) Rig.start
    = (Rig.start, Raise AssertionError)
  /\ compare_geoms (C := Rig.rig) (Rig.geom_at 0) (Rig.geom_at 0.000244140625)
       Rig.start
    = (Rig.start, Ok tt)
  /\ validation_comparison (C := Rig.rig)
       (zip [Rig.geom_at 0] [Rig.geom_at 1]) Rig.start
    = (Rig.start, Ok tt).
Proof. by vm_compute. Qed.

(* ===================================================================== *)
(** * The driver loop (C8) *)
(* ===================================================================== *)






(* ===================================================================== *)
(** * Length mismatches in [update_params] (C2) *)
(* ===================================================================== *)

Lemma slice_length {A : Type} (xs : list A) (i j : nat) :
  j <= length xs -> length (slice xs i j) = j - i.
Proof.
  intros Hj. unfold slice. rewrite length_take, length_drop. lia.
Qed.

Lemma getslice_len (x : PyVal) (i j n : nat) (v : PyVal) :
  py_len x = Ok n -> getslice x i j = Ok v -> j <= n ->
  py_len v = Ok (j - i).
Proof.
  destruct x as [ | y | xs | xs | f | e | e | num | flag ]; try done; simpl;
    intros [= <-] [= <-] Hj; simpl; by rewrite slice_length.
Qed.

(** A sized value that a setter accepts gives the object that length. *)
Lemma set_value_len (o o' : ParameterObj) (v : PyVal) (n : nat) :
  set_value o v = Ok o' -> py_len v = Ok n ->
  Parameter_len o' = Ok n /\ optimize o' = optimize o.
Proof.
  unfold set_value, ScalarParameter_set_value, Parameter_set_value.
  destruct v as [ | y | xs | xs | f | e | e | num | flag ]; try done; simpl;
    intros Hset [= <-].
  - destruct (klass o).
    + by injection Hset as <-.
    + destruct xs as [ | y [ | z xs ] ]; try done.
      by injection Hset as <-.
    + by injection Hset as <-.
  - destruct (klass o); try done; by injection Hset as <-.
Qed.

Lemma expected_length_insert (h : list ParameterObj) (a : nat)
    (o o' : ParameterObj) (params : list entry) (opt : bool) :
  h !! a = Some o -> Parameter_len o' = Parameter_len o ->
  optimize o' = optimize o ->
  expected_length (<[a := o']> h) params opt = expected_length h params opt.
Proof.
  intros Ha Hlen Hopt.
  induction params as [|p params IH]; [ done | ].
  simpl. rewrite IH.
  assert (Hinc : match included (<[a := o']> h) opt p,
                       included h opt p with
                 | Some (_, o1), Some (_, o2) =>
                     Parameter_len o1 = Parameter_len o2
                 | None, None => True
                 | _, _ => False
                 end).
  { unfold included. destruct p as [b|v]; simpl; [ | done ].
    destruct (decide (a = b)) as [<- | Hne].
    - rewrite list_lookup_insert_eq by (by eapply lookup_lt_Some).
      rewrite Ha. unfold excluded. rewrite Hopt.
      by destruct (opt && negb (optimize o)).
    - rewrite list_lookup_insert_ne by done.
      destruct (h !! b) as [ob|]; [ | done ].
      by destruct (excluded opt ob). }
  destruct (included (<[a := o']> h) opt p) as [[b1 o1]|],
           (included h opt p) as [[b2 o2]|]; try done.
  by rewrite Hinc.
Qed.

Lemma assign_slices_mono (params : list entry) (x : PyVal) (opt : bool)
    (idx : nat) (w w' : world) (idx' : nat) :
  assign_slices params x opt idx w = (w', Ok idx') -> idx <= idx'.
Proof.
  revert idx w.
  induction params as [|p params IH]; intros idx w.
  { simpl. unfold ret. intros [= _ <-]. lia. }
  rewrite assign_slices_cons.
  destruct (as_Parameter (heap w) p) as [[a o]|]; [ | apply IH ].
  destruct (excluded opt o); [ apply IH | ].
  destruct (Parameter_len o) as [len_p|e]; [ | done ].
  destruct (len_p =? 0); [ done | ].
  destruct (getslice x idx (idx + len_p)) as [v|e]; [ | done ].
  destruct (set_value o v) as [o'|e]; [ | done ].
  intros Hrest. apply IH in Hrest. lia.
Qed.

(** If the loop runs through without leaving the vector, it has consumed
    exactly the sum of the lengths the included entries had at the start. *)
Lemma assign_slices_in_range (params : list entry) (x : PyVal) (opt : bool)
    (idx : nat) (w w' : world) (idx' n : nat) :
  py_len x = Ok n ->
  assign_slices params x opt idx w = (w', Ok idx') -> idx' <= n ->
  expected_length (heap w) params opt = Ok (idx' - idx).
Proof.
  intros Hn. revert idx w.
  induction params as [|p params IH]; intros idx w.
  { simpl. unfold ret. intros [= _ <-] _. f_equal. lia. }
  rewrite assign_slices_cons. simpl. unfold included.
  destruct (as_Parameter (heap w) p) as [[a o]|] eqn:Hp; [ | apply IH ].
  destruct (excluded opt o); [ apply IH | ].
  destruct (Parameter_len o) as [len_p|e] eqn:Hlen; [ | done ].
  destruct (len_p =? 0); [ done | ].
  destruct (getslice x idx (idx + len_p)) as [v|e] eqn:Hv; [ | done ].
  destruct (set_value o v) as [o'|e] eqn:Hset; [ | done ].
  intros Hrest Hle.
  pose proof (assign_slices_mono _ _ _ _ _ _ _ Hrest) as Hmono.
  pose proof (getslice_len x idx (idx + len_p) n v Hn Hv) as Hvlen.
  replace (idx + len_p - idx) with len_p in Hvlen by lia.
  destruct (set_value_len o o' v len_p Hset) as [Hlen' Hopt];
    [ apply Hvlen; lia | ].
  apply as_Parameter_Some in Hp as [-> Ha].
  specialize (IH _ _ Hrest Hle). simpl in IH.
  rewrite (expected_length_insert (heap w) a o o') in IH
    by (done || congruence).
  rewrite IH. f_equal. lia.
Qed.

(** C2, as the code has it: [update_params] fails whenever the length of
    the flat vector is not the sum of the lengths of the included
    entries, and whenever an included entry reports length 0; the latter
    is an [AssertionError] raised on reaching that entry, in the state the
    entries before it have left.  Nothing is said about the Parameters
    being left as they were: the entries walked before the failure have
    been assigned. *)
Theorem update_params_length_mismatch (params : list entry) (x : PyVal)
    (opt : bool) (w : world) :
  (expected_length (heap w) params opt <> py_len x ->
     exists e, snd (update_params params x opt w) = Raise e)
  /\ (forall a o,
        Ref a ∈ params -> heap w !! a = Some o -> excluded opt o = false ->
        Parameter_len o = Ok 0 ->
        exists e, snd (update_params params x opt w) = Raise e)
  /\ (forall pre post w' idx a o,
        params = pre ++ Ref a :: post ->
        assign_slices pre x opt 0 w = (w', Ok idx) ->
        heap w' !! a = Some o -> excluded opt o = false ->
        Parameter_len o = Ok 0 ->
        update_params params x opt w = (w', Raise AssertionError)).
Proof.
  split; [ | split ].
  - intros Hne. rewrite update_params_unfold.
    destruct (assign_slices params x opt 0 w) as [w' [idx|e]] eqn:Hloop;
      [ | eauto ].
    destruct (py_len x) as [n|e] eqn:Hn; [ | eauto ].
    destruct (Nat.eqb_spec idx n) as [-> | Hidx]; [ | eauto ].
    exfalso. apply Hne.
    rewrite (assign_slices_in_range params x opt 0 w w' n n Hn Hloop)
      by lia.
    f_equal. lia.
  - intros a o Hin Ha Hex Hzero.
    rewrite update_params_unfold.
    destruct (assign_slices_no_length params x opt 0 w a o Hin Ha Hex)
      as (w' & e & ->); [ | eauto ].
    intros n Hn. congruence.
  - intros pre post w' idx a o -> Hpre Ha Hex Hzero.
    rewrite update_params_unfold, assign_slices_app, Hpre.
    rewrite assign_slices_cons.
    by rewrite (as_Parameter_Ref _ _ _ Ha), Hex, Hzero.
Qed.

Lemma update_params_length_mismatch_witness :
  (exists e, snd (update_params Scenario.params Scenario.x9_short true
                    Scenario.w0) = Raise e)
  /\ (exists e, snd (update_params [Ref 1; Ref 0] (VArr [1%float]) true
                       Scenario.w_empty) = Raise e)
  /\ exists w',
       update_params [Ref 1; Ref 0] (VArr [1%float]) true Scenario.w_empty
       = (w', Raise AssertionError)
       /\ map Parameter_value (heap w') = [VArr []; VFloat 1].
Proof.
  split; [ | split ].
  - apply (update_params_length_mismatch Scenario.params Scenario.x9_short
             true Scenario.w0).
    vm_compute. discriminate.
  - apply (update_params_length_mismatch [Ref 1; Ref 0] (VArr [1%float])
             true Scenario.w_empty) with (a := 0) (o := Scenario.empty);
      [ apply list_elem_of_further, list_elem_of_here
      | reflexivity | reflexivity | reflexivity ].
  - eexists. split.
    + apply (update_params_length_mismatch [Ref 1; Ref 0] (VArr [1%float])
               true Scenario.w_empty)
        with (pre := [Ref 1]) (post := []) (idx := 1) (a := 0)
             (o := Scenario.empty); reflexivity.
    + reflexivity.
Defined.

(** C2, as stated, fails: with the scenario's vector one element short
    the call does fail, but the Parameters are not left as they were.
    Both scalars have been assigned and the vector holds a two-element
    slice by the time the length check at the end raises. *)
Lemma update_params_partial_update :
  let r := update_params Scenario.params Scenario.x9_short true Scenario.w0 in
  expected_length (heap Scenario.w0) Scenario.params true = Ok 5
  /\ py_len Scenario.x9_short = Ok 4
  /\ snd r = Raise AssertionError
  /\ map Parameter_value (heap (fst r))
     = [VFloat 9; VFloat (-9); VArr [7; 8]%float; VFloat 5]
  /\ map Parameter_value (heap Scenario.w0)
     = [VFloat 2; VFloat (-1); VArr [1; 2; 3]%float; VFloat 5].
Proof. by repeat split. Qed.

(* ===================================================================== *)
(** * The round trip (C1) *)
(* ===================================================================== *)

Lemma shape_valid_numeric (o : ParameterObj) :
  shape_valid o = true ->
  exists xs, numeric (_value o) = Some xs
    /\ xs <> []
    /\ Parameter_len o = Ok (length xs)
    /\ Parameter_value o = _value o
    /\ (klass o = ScalarParameter_cls -> exists x, xs = [x]).
Proof.
  unfold shape_valid, Parameter_len, Parameter_value.
  destruct (_value o) as [ | x | xs | xs | f | e | e | num | flag ]; simpl; try done.
  - intros _. exists [x]. repeat split; try done. eauto.
  - intros Hshape. exists xs. repeat split; try done.
    + intros ->. by destruct (klass o).
    + intros Hk. rewrite Hk in Hshape.
      destruct xs as [ | x [ | y xs ] ]; try done. eauto.
  - intros Hshape. exists xs. repeat split; try done.
    + intros ->. by destruct (klass o).
    + intros Hk. rewrite Hk in Hshape.
      destruct xs as [ | x [ | y xs ] ]; try done. eauto.
Qed.

Lemma settle_numeric (o : ParameterObj) (xs : list float) :
  numeric (_value o) = Some xs ->
  (klass o = ScalarParameter_cls -> exists x, xs = [x]) ->
  numeric (_value (settle o)) = Some xs
  /\ Parameter_len (settle o) = Ok (length xs)
  /\ Parameter_value (settle o) = _value (settle o).
Proof.
  intros Hnum Hscalar. unfold settle, settled_value. rewrite Hnum.
  destruct (klass o).
  - done.
  - destruct Hscalar as [x ->]; done.
  - done.
Qed.

Lemma settle_canonical (o : ParameterObj) :
  canonical o = true -> settle o = o.
Proof.
  unfold canonical, settle, settled_value. destruct o as [c v v0 opt b].
  simpl. destruct c, v; try done.
Qed.

(** Assigning an object its own numbers, as the slice of the packed
    vector has them, settles it. *)
Lemma set_value_own (o o' : ParameterObj) (xs : list float) :
  restored o o' -> shape_valid o = true ->
  numeric (_value o) = Some xs ->
  set_value o' (VArr xs) = Ok (settle o).
Proof.
  intros Hres Hshape Hnum.
  destruct (shape_valid_numeric o Hshape) as (xs' & Hnum' & _ & _ & _ & Hsc).
  rewrite Hnum in Hnum'. injection Hnum' as <-.
  assert (Hk : klass o' = klass o /\ with_value o' = with_value o).
  { destruct Hres as [-> | (_ & _ & ->)]; done. }
  destruct Hk as [Hk Hw].
  unfold set_value, ScalarParameter_set_value, Parameter_set_value.
  rewrite Hk, Hw. unfold settle, settled_value. rewrite Hnum.
  destruct (klass o); try done.
  destruct Hsc as [x ->]; done.
Qed.

Lemma restored_facts (o o' : ParameterObj) :
  restored o o' ->
  klass o' = klass o /\ optimize o' = optimize o /\ _bounds o' = _bounds o
  /\ _value_original o' = _value_original o
  /\ numeric (Parameter_value o') = numeric (Parameter_value o)
  /\ Parameter_len o' = Parameter_len o
  /\ (canonical o = true -> o' = o)
  /\ (optimize o = false -> o' = o).
Proof.
  intros [-> | (Hopt & Hshape & ->)]; [ done | ].
  destruct (shape_valid_numeric o Hshape) as (xs & Hnum & _ & Hlen & Hval & Hsc).
  destruct (settle_numeric o xs Hnum Hsc) as (Hnum' & Hlen' & Hval').
  repeat split; try done.
  - by rewrite Hval, Hval', Hnum, Hnum'.
  - by rewrite Hlen, Hlen'.
  - apply settle_canonical.
  - congruence.
Qed.

Lemma freeze_written (xs : list float) : freeze (map Some xs) = xs.
Proof.
  unfold freeze. induction xs as [|x xs IH]; [ done | ].
  simpl. by rewrite IH.
Qed.

Lemma write_next (done : list float) (ys : list float) (k : nat) :
  write (map Some done ++ replicate (length ys + k) None) (length done) ys
  = map Some (done ++ ys) ++ replicate k None.
Proof.
  unfold write.
  rewrite take_app_length' by (by rewrite length_map).
  rewrite drop_app_add' by (by rewrite length_map).
  rewrite drop_replicate_add, map_app. by rewrite <- app_assoc.
Qed.

Lemma setslice_next (done xs : list float) (k : nat) (v : PyVal) :
  numeric v = Some xs ->
  setslice (map Some done ++ replicate (length xs + k) None)
    (length done) (length xs) v
  = Ok (map Some (done ++ xs) ++ replicate k None).
Proof.
  intros Hnum. unfold setslice.
  rewrite length_app, length_map, length_replicate.
  rewrite Nat.min_l by lia.
  replace ((length done + length xs) `min` (length done + (length xs + k))
           - length done) with (length xs) by lia.
  destruct v as [ | x | ys | ys | f | e | e | num | flag ]; try done; simpl in Hnum;
    injection Hnum as <-.
  - simpl. by rewrite <- (write_next done [x] k).
  - by rewrite Nat.eqb_refl, write_next.
  - by rewrite Nat.eqb_refl, write_next.
Qed.

Section Roundtrip.
Variable h0 : list ParameterObj.
Variable params0 : list entry.
Hypothesis valid :
  forall a o, Ref a ∈ params0 -> h0 !! a = Some o -> optimize o = true ->
    shape_valid o = true.

Lemma included_valid (p : entry) (a : nat) (o : ParameterObj) :
  p ∈ params0 -> included h0 true p = Some (a, o) ->
  optimize o = true /\ shape_valid o = true.
Proof.
  intros Hin [Hp Hex]%included_Some.
  apply as_Parameter_Some in Hp as [-> Ha].
  unfold excluded in Hex. simpl in Hex.
  apply negb_false_iff in Hex. eauto.
Qed.

(** The length pass finds the number of packed values. *)
Lemma expected_length_valid (params : list entry) :
  params ⊆ params0 ->
  expected_length h0 params true
  = Ok (length (packed_values h0 params true)).
Proof.
  induction params as [|p params IH]; intros Hsub; [ done | ].
  simpl.
  assert (Hp : p ∈ params0) by (apply Hsub, list_elem_of_here).
  assert (Hrest : params ⊆ params0).
  { intros q Hq. by apply Hsub, list_elem_of_further. }
  destruct (included h0 true p) as [[a o]|] eqn:Hinc; [ | by apply IH ].
  destruct (included_valid p a o Hp Hinc) as [_ Hshape].
  destruct (shape_valid_numeric o Hshape) as (xs & -> & _ & -> & _).
  rewrite (IH Hrest). simpl. by rewrite length_app.
Qed.

(** The second loop writes the packed values, in collection order. *)
Lemma fill_value_valid (params : list entry) (done : list float) (k : nat)
    (w : world) :
  params ⊆ params0 -> heap w = h0 ->
  let vs := packed_values h0 params true in
  fill params true "value"
    (map Some done ++ replicate (length vs + k) None) (length done) w
  = (w, Ok (map Some (done ++ vs) ++ replicate k None,
            length done + length vs, None)).
Proof.
  intros Hsub Hh. cbv zeta. revert done Hsub.
  induction params as [|p params IH]; intros done Hsub.
  { simpl. unfold ret. by rewrite app_nil_r, Nat.add_0_r. }
  assert (Hp : p ∈ params0) by (apply Hsub, list_elem_of_here).
  assert (Hrest : params ⊆ params0).
  { intros q Hq. by apply Hsub, list_elem_of_further. }
  rewrite fill_cons, Hh, packed_values_cons. cbv zeta.
  destruct (included h0 true p) as [[a o]|] eqn:Hinc.
  - destruct (included_valid p a o Hp Hinc) as [_ Hshape].
    apply included_Some in Hinc as [-> ->].
    destruct (shape_valid_numeric o Hshape) as (xs & Hnum & _ & -> & -> & _).
    rewrite Hnum. simpl.
    rewrite length_app, <- Nat.add_assoc.
    rewrite (setslice_next done xs _ _ Hnum).
    rewrite <- (length_app done xs), (IH (done ++ xs) Hrest).
    by rewrite <- app_assoc, !length_app, Nat.add_assoc.
  - apply included_None in Hinc.
    destruct (as_Parameter h0 p) as [[a o]|]; [ | by apply IH ].
    rewrite Hinc. by apply IH.
Qed.

(** The update loop hands every included entry its own numbers back. *)
Lemma assign_slices_valid (params : list entry) (pre : list float)
    (x : PyVal) (w : world) :
  params ⊆ params0 -> Forall2 restored h0 (heap w) ->
  let vs := packed_values h0 params true in
  x = VArr (pre ++ vs) \/ vs = [] ->
  exists w',
    assign_slices params x true (length pre) w
    = (w', Ok (length pre + length vs))
    /\ Forall2 restored h0 (heap w').
Proof.
  cbv zeta. revert pre w.
  induction params as [|p params IH]; intros pre w Hsub Hres Hx.
  { exists w. simpl. unfold ret. by rewrite Nat.add_0_r. }
  assert (Hp : p ∈ params0) by (apply Hsub, list_elem_of_here).
  assert (Hrest : params ⊆ params0).
  { intros q Hq. by apply Hsub, list_elem_of_further. }
  rewrite assign_slices_cons. rewrite packed_values_cons in *.
  assert (Hcur : match as_Parameter h0 p with
                 | Some (a, o) =>
                     exists o', as_Parameter (heap w) p = Some (a, o')
                       /\ h0 !! a = Some o /\ restored o o'
                 | None => as_Parameter (heap w) p = None
                 end).
  { destruct p as [a|v]; [ | done ]. simpl.
    destruct (h0 !! a) as [o|] eqn:Ha.
    - destruct (Forall2_lookup_l _ _ _ _ _ Hres Ha) as (o' & Ha' & Hoo').
      exists o'. by rewrite Ha'.
    - apply lookup_ge_None in Ha.
      rewrite (Forall2_length _ _ _ Hres) in Ha.
      apply lookup_ge_None in Ha. by rewrite Ha. }
  destruct (included h0 true p) as [[a o]|] eqn:Hinc.
  - destruct (included_valid p a o Hp Hinc) as [Hon Hshape].
    apply included_Some in Hinc as [Hp0 Hex].
    rewrite Hp0 in Hcur. destruct Hcur as (o' & -> & Ha & Hoo').
    destruct (restored_facts o o' Hoo') as (_ & Hopt & _ & _ & _ & Hlen & _).
    unfold excluded in *. rewrite Hopt, Hex.
    destruct (shape_valid_numeric o Hshape) as (xs & Hnum & Hne & Hlen0 & _).
    rewrite Hnum in Hx. simpl in Hx. rewrite Hnum. simpl.
    destruct Hx as [-> | Hnil];
      [ | by apply app_eq_nil in Hnil as [? _] ].
    rewrite Hlen, Hlen0.
    destruct (Nat.eqb_spec (length xs) 0) as [Hz | _];
      [ by destruct xs | ].
    simpl getslice. unfold slice.
    replace (length pre + length xs - length pre) with (length xs) by lia.
    rewrite drop_app_length, take_app_length.
    rewrite (set_value_own o o' xs Hoo' Hshape Hnum).
    destruct (IH (pre ++ xs)
                {| heap := <[a := settle o]> (heap w); warned := warned w |}
                Hrest) as (w' & Hloop & Hres').
    + simpl. rewrite <- (list_insert_id h0 a o Ha).
      apply Forall2_insert; [ done | ]. right. eauto.
    + left. by rewrite <- app_assoc.
    + exists w'. split; [ | done ].
      rewrite length_app in Hloop. rewrite Hloop.
      by rewrite length_app, Nat.add_assoc.
  - apply included_None in Hinc.
    destruct (as_Parameter h0 p) as [[a o]|].
    + destruct Hcur as (o' & -> & Ha & Hoo').
      destruct (restored_facts o o' Hoo') as (_ & Hopt & _).
      unfold excluded in *. rewrite Hopt, Hinc. by apply IH.
    + rewrite Hcur. by apply IH.
Qed.

End Roundtrip.

Lemma collection_valid_spec (h : list ParameterObj) (params : list entry) :
  collection_valid h params = true ->
  forall a o, Ref a ∈ params -> h !! a = Some o -> optimize o = true ->
    shape_valid o = true.
Proof.
  unfold collection_valid. rewrite forallb_forall.
  intros Hall a o Hin Ha Hopt.
  specialize (Hall (Ref a)). rewrite <- list_elem_of_In in Hall.
  specialize (Hall Hin). unfold included in Hall.
  rewrite (as_Parameter_Ref _ _ _ Ha) in Hall.
  unfold excluded in Hall. by rewrite Hopt in Hall.
Qed.

Lemma restored_heap_refl (h : list ParameterObj) : Forall2 restored h h.
Proof.
  induction h as [|o h IH]; constructor; [ by left | done ].
Qed.

(** The update loop leaves alone what the collection does not refer to. *)
Lemma assign_slices_untouched (params : list entry) (x : PyVal) (opt : bool)
    (idx : nat) (w : world) (a : nat) :
  Ref a ∉ params ->
  heap (fst (assign_slices params x opt idx w)) !! a = heap w !! a.
Proof.
  revert idx w.
  induction params as [|p params IH]; intros idx w Hnot; [ done | ].
  apply not_elem_of_cons in Hnot as [Hne Hnot].
  rewrite assign_slices_cons.
  destruct (as_Parameter (heap w) p) as [[b o]|] eqn:Hp; [ | by apply IH ].
  destruct (excluded opt o); [ by apply IH | ].
  destruct (Parameter_len o) as [len_p|e]; [ | done ].
  destruct (len_p =? 0); [ done | ].
  destruct (getslice x idx (idx + len_p)) as [v|e]; [ | done ].
  destruct (set_value o v) as [o'|e]; [ | done ].
  rewrite IH by done. simpl.
  apply as_Parameter_Some in Hp as [-> _].
  apply list_lookup_insert_ne. congruence.
Qed.

(** C1: on a collection whose included Parameters hold concrete,
    shape-valid values, packing the values and unpacking the packed
    vector both succeed; the vector holds the included values in
    collection order; afterwards every Parameter has the class, flag,
    bounds and numbers it had, an included Parameter whose value was a
    plain number (scalar) or an array is exactly as it was, so is every
    excluded Parameter, and so is every object outside the collection. *)
Theorem pack_unpack_roundtrip (params : list entry) (w : world) :
  collection_valid (heap w) params = true ->
  let w1 := add_warnings (count_others (heap w) params) w in
  exists x w',
    params2ndarray params true "value" w = (w1, Ok x)
    /\ numeric x = Some (packed_values (heap w) params true)
    /\ update_params params x true w1 = (w', Ok tt)
    /\ warned w' = warned w1
    /\ Forall2 same_Parameter (heap w) (heap w')
    /\ (forall a, Ref a ∉ params -> heap w' !! a = heap w !! a).
Proof.
  intros Hvalid w1.
  pose proof (collection_valid_spec _ _ Hvalid) as Hv. clear Hvalid.
  rename Hv into Hvalid.
  set (vs := packed_values (heap w) params true).
  assert (Hsub : params ⊆ params) by done.
  pose proof (expected_length_valid (heap w) params Hvalid params Hsub)
    as Hlen. fold vs in Hlen.
  assert (Hpack : exists x,
            params2ndarray params true "value" w = (w1, Ok x)
            /\ numeric x = Some vs
            /\ py_len x = Ok (length vs)
            /\ (x = VArr ([] ++ vs) \/ vs = [])).
  { rewrite params2ndarray_unfold, (count_length_Ok params true 0 w _ Hlen).
    fold w1. simpl.
    destruct (Nat.eqb_spec (length vs) 0) as [Hz | Hnz].
    - exists (VList []). apply length_zero_iff_nil in Hz.
      rewrite Hz. repeat split; try done. by right.
    - pose proof (fill_value_valid (heap w) params Hvalid params [] 0 w1
                    Hsub eq_refl) as Hfill.
      cbv zeta in Hfill. fold vs in Hfill. simpl in Hfill.
      rewrite Nat.add_0_r in Hfill. unfold np_empty. rewrite Hfill.
      rewrite Nat.eqb_refl, app_nil_r, freeze_written.
      exists (VArr vs). repeat split; try done. by left. }
  destruct Hpack as (x & Hpack & Hnum & Hxlen & Hx).
  destruct (assign_slices_valid (heap w) params Hvalid params [] x w1 Hsub
              (restored_heap_refl _) Hx) as (w' & Hloop & Hres).
  fold vs in Hloop. simpl in Hloop.
  pose proof (assign_slices_frame params x true 0 w1) as [Hwarned _].
  pose proof (assign_slices_untouched params x true 0 w1) as Hout.
  rewrite Hloop in Hwarned, Hout. simpl in Hwarned, Hout.
  exists x, w'. split; [ done | ]. split; [ done | ].
  split; [ | split; [ done | split; [ | done ] ] ].
  - rewrite update_params_unfold, Hloop, Hxlen. by rewrite Nat.eqb_refl.
  - eapply Forall2_impl; [ exact Hres | ].
    intros o o' Hoo'.
    destruct (restored_facts o o' Hoo')
      as (? & ? & ? & ? & ? & _ & ? & ?).
    by repeat split.
Qed.

Lemma pack_unpack_roundtrip_witness :
  exists x w',
    params2ndarray Scenario.params true "value" Scenario.w0
    = (Scenario.w0, Ok x)
    /\ numeric x = Some [2; -1; 1; 2; 3]%float
    /\ update_params Scenario.params x true Scenario.w0 = (w', Ok tt)
    /\ Forall2 same_Parameter (heap Scenario.w0) (heap w').
Proof.
  destruct (pack_unpack_roundtrip Scenario.params Scenario.w0 eq_refl)
    as (x & w' & Hpack & Hnum & Hunpack & _ & Hsame & _).
  exists x, w'. split; [ exact Hpack | ]. split; [ exact Hnum | ].
  split; [ exact Hunpack | exact Hsame ].
Defined.

(* ===================================================================== *)
(** * No slot of a returned array is left unwritten *)
(* ===================================================================== *)

Lemma setslice_written (done : list float) (len_p k : nat) (store : PyVal)
    (out : buffer) :
  setslice (map Some done ++ replicate (len_p + k) None) (length done)
    len_p store = Ok out ->
  exists ys, length ys = len_p
    /\ out = map Some (done ++ ys) ++ replicate k None.
Proof.
  unfold setslice.
  rewrite length_app, length_map, length_replicate.
  rewrite Nat.min_l by lia.
  replace ((length done + len_p) `min` (length done + (len_p + k))
           - length done) with len_p by lia.
  assert (Hfill : forall v,
            write (map Some done ++ replicate (len_p + k) None)
              (length done) (replicate len_p v)
            = map Some (done ++ replicate len_p v) ++ replicate k None).
  { intros v.
    rewrite <- (write_next done (replicate len_p v) k).
    by rewrite length_replicate. }
  assert (Hseq : forall xs,
            (if length xs =? len_p
             then Ok (write (map Some done ++ replicate (len_p + k) None)
                        (length done) xs)
             else match xs with
                  | [v] => Ok (write (map Some done
                                      ++ replicate (len_p + k) None)
                                 (length done) (replicate len_p v))
                  | _ => Raise ValueError
                  end) = Ok out ->
            exists ys, length ys = len_p
              /\ out = map Some (done ++ ys) ++ replicate k None).
  { intros xs.
    destruct (Nat.eqb_spec (length xs) len_p) as [<- | Hne].
    - intros [= <-]. exists xs. by rewrite write_next.
    - destruct xs as [ | v [ | y xs ] ]; try done.
      intros [= <-]. exists (replicate len_p v).
      by rewrite length_replicate, Hfill. }
  assert (Hone : forall r : result float,
            match r with
            | Ok v => Ok (write (map Some done ++ replicate (len_p + k) None)
                            (length done) (replicate len_p v))
            | Raise e => Raise e
            end = Ok out ->
            exists ys, length ys = len_p
              /\ out = map Some (done ++ ys) ++ replicate k None).
  { intros [v|e]; [ | done ].
    intros [= <-]. exists (replicate len_p v).
    by rewrite length_replicate, Hfill. }
  destruct store as [ | v | xs | xs | f | e | e | num | flag ];
    first [ apply Hseq | apply Hone ].
Qed.

(** Whatever the key, a second loop that falls through has filled
    exactly the slots the first loop counted. *)
Lemma fill_writes_all (params : list entry) (opt : bool) (key : string)
    (done : list float) (k : nat) (w w' : world) (n : nat) (out : buffer)
    (idx : nat) :
  expected_length (heap w) params opt = Ok n ->
  fill params opt key (map Some done ++ replicate (n + k) None)
    (length done) w = (w', Ok (out, idx, None)) ->
  exists vs, length vs = n
    /\ out = map Some (done ++ vs) ++ replicate k None
    /\ idx = length done + n.
Proof.
  revert done n.
  induction params as [|p params IH]; intros done n Hn.
  { simpl in *. injection Hn as <-. unfold ret. intros [= _ <- <-].
    exists []. by rewrite app_nil_r, Nat.add_0_r. }
  rewrite fill_cons. cbv zeta. simpl in Hn. unfold included in Hn.
  destruct (as_Parameter (heap w) p) as [[a o]|]; [ | by apply IH ].
  destruct (excluded opt o); [ by apply IH | ].
  destruct (Parameter_len o) as [len_p|e]; [ | done ].
  destruct (expected_length (heap w) params opt) as [m|e] eqn:Hm; [ | done ].
  injection Hn as <-.
  assert (Hstep : forall store,
    match setslice (map Some done ++ replicate (len_p + m + k) None)
            (length done) len_p store with
    | Ok out0 => fill params opt key out0 (length done + len_p) w
    | Raise e => (w, Raise e)
    end = (w', Ok (out, idx, None)) ->
    exists vs, length vs = len_p + m
      /\ out = map Some (done ++ vs) ++ replicate k None
      /\ idx = length done + (len_p + m)).
  { intros store.
    destruct (setslice _ _ _ store) as [out0|e] eqn:Hset; [ | done ].
    rewrite <- Nat.add_assoc in Hset.
    apply setslice_written in Hset as (ys & Hys & ->).
    rewrite <- Hys, <- length_app. intros Hrest.
    apply (IH (done ++ ys) m eq_refl) in Hrest as (vs & Hvs & -> & ->).
    exists (ys ++ vs).
    rewrite !length_app, <- app_assoc. repeat split; try done; lia. }
  destruct (key =? "value")%string; [ apply Hstep | ].
  destruct (key =? "min_bound")%string.
  { destruct (Parameter_bounds o) as [b|e]; [ apply Hstep | done ]. }
  destruct (key =? "max_bound")%string; [ | done ].
  destruct (Parameter_bounds o) as [b|e]; [ apply Hstep | done ].
Qed.

(** The only value the second loop ever returns early. *)
Lemma fill_returned (params : list entry) (opt : bool) (key : string)
    (out0 : buffer) (idx0 : nat) (w w' : world) (out : buffer) (idx : nat)
    (v : PyVal) :
  fill params opt key out0 idx0 w = (w', Ok (out, idx, Some v)) ->
  v = VExcClass ValueError.
Proof.
  revert out0 idx0.
  induction params as [|p params IH]; intros out0 idx0; [ done | ].
  rewrite fill_cons. cbv zeta.
  destruct (as_Parameter (heap w) p) as [[a o]|]; [ | apply IH ].
  destruct (excluded opt o); [ apply IH | ].
  destruct (Parameter_len o) as [len_p|e]; [ | done ].
  destruct (key =? "value")%string.
  { destruct (setslice out0 idx0 len_p (Parameter_value o));
      [ apply IH | done ]. }
  destruct (key =? "min_bound")%string.
  { destruct (Parameter_bounds o) as [b|e]; [ | done ].
    destruct (setslice out0 idx0 len_p b.1); [ apply IH | done ]. }
  destruct (key =? "max_bound")%string; [ | by intros [= _ _ _ <-] ].
  destruct (Parameter_bounds o) as [b|e]; [ | done ].
  destruct (setslice out0 idx0 len_p b.2); [ apply IH | done ].
Qed.

(** So an array [params2ndarray] returns is the buffer with every slot
    written, of the length the first loop counted. *)
Lemma params2ndarray_array_written (params : list entry) (opt : bool)
    (key : string) (w w' : world) (xs : list float) :
  params2ndarray params opt key w = (w', Ok (VArr xs)) ->
  expected_length (heap w) params opt = Ok (length xs)
  /\ exists out, snd (fill params opt key (np_empty (length xs)) 0 w)
                 = Ok (out, length xs, None)
       /\ out = map Some xs.
Proof.
  rewrite params2ndarray_unfold.
  destruct (expected_length (heap w) params opt) as [n|e] eqn:Hn.
  - rewrite (count_length_Ok params opt 0 w n Hn). simpl.
    destruct (n =? 0); [ done | ].
    set (w1 := add_warnings (count_others (heap w) params) w).
    rewrite (fill_pure params opt key (np_empty n) 0 w1 w) by done.
    destruct (fill params opt key (np_empty n) 0 w)
      as [w2 [[[out idx] [v|]]|e]] eqn:Hfill; simpl; try done.
    { intros [= _ ->]. by apply fill_returned in Hfill. }
    pose proof (fill_pure params opt key (np_empty n) 0 w w eq_refl) as Hw.
    rewrite Hfill in Hw. injection Hw as ->.
    pose proof (fill_writes_all params opt key [] 0 w w n out idx Hn) as Hall.
    simpl in Hall. rewrite Nat.add_0_r in Hall.
    destruct (Hall Hfill) as (vs & Hvs & -> & ->).
    rewrite app_nil_r in *. rewrite Nat.eqb_refl.
    intros [= _ <-]. rewrite freeze_written, Hvs.
    split; [ done | ]. exists (map Some vs). by rewrite Hfill.
  - destruct (count_length_Raise params opt 0 w e Hn) as (k & _ & ->).
    done.
Qed.

(* ===================================================================== *)
(** * What [params2ndarray] returns and what it leaves alone *)
(* ===================================================================== *)

(** X1: [params2ndarray] changes no Parameter, whatever the collection,
    the key and the outcome; all it does to the world is to append
    warnings about non-Parameter entries, at most one for each. *)
Theorem params2ndarray_reads_only (params : list entry) (opt : bool)
    (key : string) (w : world) :
  exists k, k <= count_others (heap w) params
    /\ fst (params2ndarray params opt key w) = add_warnings k w.
Proof.
  rewrite params2ndarray_unfold.
  destruct (expected_length (heap w) params opt) as [n|e] eqn:Hn.
  - rewrite (count_length_Ok params opt 0 w n Hn).
    exists (count_others (heap w) params). split; [ done | ].
    set (w1 := add_warnings (count_others (heap w) params) w). simpl.
    destruct (n =? 0); [ done | ].
    rewrite (fill_pure params opt key (np_empty n) 0 w1 w1 eq_refl).
    destruct (snd (fill params opt key (np_empty n) 0 w1))
      as [[[out idx] [v|]]|e]; try done.
    by destruct (idx =? n).
  - destruct (count_length_Raise params opt 0 w e Hn) as (k & Hk & ->).
    by exists k.
Qed.

(** Under a known key the second loop is never left early. *)
Lemma fill_known_key (params : list entry) (opt : bool) (key : string)
    (out0 : buffer) (idx0 : nat) (w w' : world) (out : buffer) (idx : nat)
    (v : PyVal) :
  known_key key = true ->
  fill params opt key out0 idx0 w <> (w', Ok (out, idx, Some v)).
Proof.
  intros Hkey. revert out0 idx0.
  induction params as [|p params IH]; intros out0 idx0; [ done | ].
  rewrite fill_cons. cbv zeta.
  destruct (as_Parameter (heap w) p) as [[a o]|]; [ | apply IH ].
  destruct (excluded opt o); [ apply IH | ].
  destruct (Parameter_len o) as [len_p|e]; [ | done ].
  unfold known_key in Hkey.
  destruct (key =? "value")%string.
  { destruct (setslice out0 idx0 len_p (Parameter_value o));
      [ apply IH | done ]. }
  destruct (key =? "min_bound")%string.
  { destruct (Parameter_bounds o) as [b|e]; [ | done ].
    destruct (setslice out0 idx0 len_p b.1); [ apply IH | done ]. }
  destruct (key =? "max_bound")%string; [ | done ].
  destruct (Parameter_bounds o) as [b|e]; [ | done ].
  destruct (setslice out0 idx0 len_p b.2); [ apply IH | done ].
Qed.

(** X2: the three things [params2ndarray] can return.  The empty list,
    exactly when the included lengths add up to 0; an array, under a known
    key, whose length is the sum of the included lengths (never 0); or the
    [ValueError] class, under an unknown key. *)
Theorem params2ndarray_returns (params : list entry) (opt : bool)
    (key : string) (w : world) (v : PyVal) :
  snd (params2ndarray params opt key w) = Ok v ->
  (v = VList [] /\ expected_length (heap w) params opt = Ok 0)
  \/ (exists xs, v = VArr xs /\ xs <> [] /\ known_key key = true
        /\ expected_length (heap w) params opt = Ok (length xs))
  \/ (v = VExcClass ValueError /\ known_key key = false
        /\ exists n, n <> 0 /\ expected_length (heap w) params opt = Ok n).
Proof.
  destruct (params2ndarray params opt key w) as [w' r] eqn:Hrun.
  simpl. intros ->.
  pose proof Hrun as Hrun'. rewrite params2ndarray_unfold in Hrun'.
  destruct (expected_length (heap w) params opt) as [n|e] eqn:Hn.
  - rewrite (count_length_Ok params opt 0 w n Hn) in Hrun'.
    change (0 + n) with n in Hrun'.
    destruct (Nat.eqb_spec n 0) as [Hz | Hpos].
    { left. subst n. by injection Hrun' as _ <-. }
    right.
    set (w1 := add_warnings (count_others (heap w) params) w) in *.
    destruct (known_key key) eqn:Hkey.
    + left.
      destruct (fill params opt key (np_empty n) 0 w1)
        as [w2 [[[out idx] [u|]]|e]] eqn:Hfill; try done.
      { by apply fill_known_key in Hfill. }
      destruct (idx =? n); [ | done ].
      injection Hrun' as _ <-.
      destruct (params2ndarray_array_written _ _ _ _ _ _ Hrun) as [Hlen _].
      rewrite Hn in Hlen. injection Hlen as ->.
      exists (freeze out). repeat split; try done.
      intros Hnil. by rewrite Hnil in Hpos.
    + right.
      rewrite (fill_unknown_key params opt key _ _ w1 n Hkey Hn Hpos)
        in Hrun'.
      injection Hrun' as _ <-. eauto.
  - destruct (count_length_Raise params opt 0 w e Hn) as (k & _ & Hc).
    by rewrite Hc in Hrun'.
Qed.

Lemma params2ndarray_returns_witness :
  exists xs, xs <> [] /\ length xs = 5
    /\ snd (params2ndarray Scenario.params true "max_bound" Scenario.w0)
       = Ok (VArr xs).
Proof.
  destruct (params2ndarray_returns Scenario.params true "max_bound"
              Scenario.w0 (VArr (replicate 5 infinity)) eq_refl)
    as [[Hv _] | [(xs & Hv & Hne & _ & Hlen) | [Hv _]]]; try discriminate Hv.
  injection Hv as <-. exists (replicate 5 infinity).
  split; [ exact Hne | ]. split; reflexivity.
Defined.

(* ===================================================================== *)
(** * Nothing to optimize *)
(* ===================================================================== *)

Lemma none_included_spec (h : list ParameterObj) (params : list entry)
    (opt : bool) :
  none_included h params opt = true ->
  forall p, p ∈ params -> included h opt p = None.
Proof.
  unfold none_included. rewrite forallb_forall.
  intros Hall p Hp. apply list_elem_of_In in Hp.
  specialize (Hall p Hp). by destruct (included h opt p).
Qed.

Lemma expected_length_none (h : list ParameterObj) (params : list entry)
    (opt : bool) :
  (forall p, p ∈ params -> included h opt p = None) ->
  expected_length h params opt = Ok 0.
Proof.
  induction params as [|p params IH]; intros Hnone; [ done | ].
  simpl. rewrite (Hnone p) by apply list_elem_of_here.
  apply IH. intros q Hq. by apply Hnone, list_elem_of_further.
Qed.

Lemma assign_slices_none (params : list entry) (x : PyVal) (opt : bool)
    (idx : nat) (w : world) :
  (forall p, p ∈ params -> included (heap w) opt p = None) ->
  assign_slices params x opt idx w = (w, Ok idx).
Proof.
  induction params as [|p params IH]; intros Hnone; [ done | ].
  rewrite assign_slices_cons.
  pose proof (included_None _ _ _ (Hnone p (list_elem_of_here _ _))) as Hp.
  assert (Hrest : forall q, q ∈ params -> included (heap w) opt q = None).
  { intros q Hq. by apply Hnone, list_elem_of_further. }
  destruct (as_Parameter (heap w) p) as [[a o]|]; [ | by apply IH ].
  rewrite Hp. by apply IH.
Qed.

(** X3: when no entry of the collection is included (every Parameter has
    [optimize=False] under [optimizable_only], or there is none),
    [params2ndarray] returns the empty list under every key, and
    [update_params] changes nothing: it returns for an empty vector,
    raises [AssertionError] for a non-empty one and [TypeError] for a
    value without a length. *)
Theorem nothing_to_optimize (params : list entry) (opt : bool)
    (key : string) (x : PyVal) (w : world) :
  none_included (heap w) params opt = true ->
  params2ndarray params opt key w
  = (add_warnings (count_others (heap w) params) w, Ok (VList []))
  /\ update_params params x opt w
     = (w, match py_len x with
           | Ok 0 => Ok tt
           | Ok (S _) => Raise AssertionError
           | Raise e => Raise e
           end).
Proof.
  intros Hnone. pose proof (none_included_spec _ _ _ Hnone) as Hspec.
  split.
  - rewrite params2ndarray_unfold.
    by rewrite (count_length_Ok params opt 0 w 0 (expected_length_none _ _ _ Hspec)).
  - rewrite update_params_unfold, (assign_slices_none _ _ _ _ _ Hspec).
    by destruct (py_len x) as [[|n]|e].
Qed.

Lemma nothing_to_optimize_witness :
  params2ndarray [Ref 3; Other VNone] true "value" Scenario.w0
  = ({| heap := Scenario.objects; warned := [not_a_Parameter] |},
     Ok (VList []))
  /\ update_params [Ref 3; Other VNone] (VList []) true Scenario.w0
     = (Scenario.w0, Ok tt).
Proof.
  split.
  - apply (nothing_to_optimize [Ref 3; Other VNone] true "value" (VList [])
             Scenario.w0 eq_refl).
  - apply (nothing_to_optimize [Ref 3; Other VNone] true "value" (VList [])
             Scenario.w0 eq_refl).
Defined.

(* ===================================================================== *)
(** * Excluded Parameters are never looked at *)
(* ===================================================================== *)

Lemma count_length_heap (params : list entry) (opt : bool) (total : nat)
    (w : world) :
  heap (fst (count_length params opt total w)) = heap w.
Proof.
  destruct (expected_length (heap w) params opt) as [n|e] eqn:Hn.
  - by rewrite (count_length_Ok params opt total w n Hn).
  - by destruct (count_length_Raise params opt total w e Hn) as (k & _ & ->).
Qed.

Section Excluded.
Variables (a : nat) (o o' : ParameterObj) (opt : bool).
Hypothesis o_excluded : excluded opt o = true.
Hypothesis o'_excluded : excluded opt o' = true.

Lemma as_Parameter_with_excluded (h : list ParameterObj) (p : entry) :
  h !! a = Some o ->
  match as_Parameter h p with
  | Some (b, ob) =>
      if decide (b = a)
      then as_Parameter (<[a := o']> h) p = Some (a, o') /\ ob = o
      else as_Parameter (<[a := o']> h) p = Some (b, ob)
  | None => as_Parameter (<[a := o']> h) p = None
  end.
Proof.
  intros Ha. destruct p as [b|v]; simpl; [ | done ].
  destruct (decide (b = a)) as [-> | Hne].
  - rewrite Ha, list_lookup_insert_eq by (by eapply lookup_lt_Some).
    by rewrite decide_True.
  - rewrite list_lookup_insert_ne by done.
    destruct (h !! b); [ | done ]. by rewrite decide_False.
Qed.

Lemma count_length_with_excluded (params : list entry) (total : nat)
    (w : world) :
  heap w !! a = Some o ->
  count_length params opt total (with_object a o' w)
  = (with_object a o' (fst (count_length params opt total w)),
     snd (count_length params opt total w)).
Proof.
  revert total w.
  induction params as [|p params IH]; intros total w Ha; [ done | ].
  rewrite !count_length_cons.
  pose proof (as_Parameter_with_excluded (heap w) p Ha) as Hp.
  simpl heap at 1.
  destruct (as_Parameter (heap w) p) as [[b ob]|].
  - destruct (decide (b = a)) as [-> | Hne].
    + destruct Hp as [-> ->]. rewrite o_excluded, o'_excluded. by apply IH.
    + rewrite Hp. destruct (excluded opt ob); [ by apply IH | ].
      destruct (Parameter_len ob); [ by apply IH | done ].
  - rewrite Hp.
    apply (IH total
             {| heap := heap w; warned := warned w ++ [not_a_Parameter] |} Ha).
Qed.

Lemma fill_with_excluded (params : list entry) (key : string)
    (out : buffer) (idx : nat) (w : world) :
  heap w !! a = Some o ->
  snd (fill params opt key out idx (with_object a o' w))
  = snd (fill params opt key out idx w).
Proof.
  intros Ha. revert out idx.
  induction params as [|p params IH]; intros out idx; [ done | ].
  rewrite !fill_cons. cbv zeta.
  pose proof (as_Parameter_with_excluded (heap w) p Ha) as Hp.
  simpl heap at 1.
  destruct (as_Parameter (heap w) p) as [[b ob]|]; [ | by rewrite Hp ].
  destruct (decide (b = a)) as [-> | Hne].
  { destruct Hp as [-> ->]. by rewrite o_excluded, o'_excluded. }
  rewrite Hp. destruct (excluded opt ob); [ done | ].
  destruct (Parameter_len ob) as [len_p|e]; [ | done ].
  destruct (key =? "value")%string.
  { by destruct (setslice out idx len_p (Parameter_value ob)). }
  destruct (key =? "min_bound")%string.
  { destruct (Parameter_bounds ob) as [b'|e]; [ | done ].
    by destruct (setslice out idx len_p b'.1). }
  destruct (key =? "max_bound")%string; [ | done ].
  destruct (Parameter_bounds ob) as [b'|e]; [ | done ].
  by destruct (setslice out idx len_p b'.2).
Qed.

Lemma assign_slices_with_excluded (params : list entry) (x : PyVal)
    (idx : nat) (w : world) :
  heap w !! a = Some o ->
  assign_slices params x opt idx (with_object a o' w)
  = (with_object a o' (fst (assign_slices params x opt idx w)),
     snd (assign_slices params x opt idx w)).
Proof.
  revert idx w.
  induction params as [|p params IH]; intros idx w Ha; [ done | ].
  rewrite !assign_slices_cons.
  pose proof (as_Parameter_with_excluded (heap w) p Ha) as Hp.
  simpl heap at 1.
  destruct (as_Parameter (heap w) p) as [[b ob]|];
    [ | rewrite Hp; by apply IH ].
  destruct (decide (b = a)) as [-> | Hne].
  { destruct Hp as [-> ->]. rewrite o_excluded, o'_excluded. by apply IH. }
  rewrite Hp. destruct (excluded opt ob); [ by apply IH | ].
  destruct (Parameter_len ob) as [len_p|e]; [ | done ].
  destruct (len_p =? 0); [ done | ].
  destruct (getslice x idx (idx + len_p)) as [v|e]; [ | done ].
  destruct (set_value ob v) as [ob'|e]; [ | done ].
  specialize (IH (idx + len_p)
                {| heap := <[b := ob']> (heap w); warned := warned w |}).
  simpl in IH. rewrite list_lookup_insert_ne in IH by done.
  specialize (IH Ha). unfold with_object in *. simpl in *.
  by rewrite list_insert_insert_ne.
Qed.

End Excluded.

(** X4: a Parameter with [optimize=False] is never looked at under
    [optimizable_only]: replacing it by any other object with
    [optimize=False] (another value, no value, a producer, other bounds)
    changes neither what [params2ndarray] and [update_params] return or
    raise, nor what they do to the other objects, and the replacement
    itself is left as it is. *)
Theorem excluded_Parameter_is_ignored (params : list entry) (key : string)
    (x : PyVal) (w : world) (a : nat) (o o' : ParameterObj) :
  heap w !! a = Some o -> optimize o = false -> optimize o' = false ->
  params2ndarray params true key (with_object a o' w)
  = (with_object a o' (fst (params2ndarray params true key w)),
     snd (params2ndarray params true key w))
  /\ update_params params x true (with_object a o' w)
     = (with_object a o' (fst (update_params params x true w)),
        snd (update_params params x true w)).
Proof.
  intros Ha Ho Ho'.
  assert (Hex : excluded true o = true) by (unfold excluded; by rewrite Ho).
  assert (Hex' : excluded true o' = true) by (unfold excluded; by rewrite Ho').
  split.
  - rewrite !params2ndarray_unfold.
    rewrite (count_length_with_excluded a o o' true Hex Hex' params 0 w Ha).
    destruct (count_length params true 0 w) as [w1 [total|e]] eqn:Hcount;
      [ | done ].
    simpl. destruct (total =? 0); [ done | ].
    assert (Ha1 : heap w1 !! a = Some o).
    { pose proof (count_length_heap params true 0 w) as Hh.
      rewrite Hcount in Hh. simpl in Hh. by rewrite Hh. }
    pose proof (fill_with_excluded a o o' true Hex Hex' params key
                  (np_empty total) 0 w1 Ha1) as Hfill.
    rewrite (fill_pure params true key (np_empty total) 0
               (with_object a o' w1) (with_object a o' w1) eq_refl), Hfill.
    rewrite (fill_pure params true key (np_empty total) 0 w1 w1 eq_refl).
    destruct (snd (fill params true key (np_empty total) 0 w1))
      as [[[out idx] [v|]]|e]; try done.
    simpl. by destruct (idx =? total).
  - rewrite !update_params_unfold.
    rewrite (assign_slices_with_excluded a o o' true Hex Hex' params x 0 w Ha).
    destruct (assign_slices params x true 0 w) as [w1 [idx|e]]; [ | done ].
    simpl. destruct (py_len x) as [n|e]; [ | done ].
    by destruct (idx =? n).
Qed.

Lemma excluded_Parameter_is_ignored_witness :
  let unset := ScalarParameter_init VNone false None in
  params2ndarray Scenario.params true "value" (with_object 3 unset Scenario.w0)
  = (with_object 3 unset Scenario.w0, Ok (VArr [2; -1; 1; 2; 3]%float))
  /\ snd (update_params Scenario.params Scenario.x9 true
            (with_object 3 unset Scenario.w0)) = Ok tt.
Proof.
  intros unset.
  destruct (excluded_Parameter_is_ignored Scenario.params "value" Scenario.x9
              Scenario.w0 3 (ScalarParameter_init (VFloat 5) false None)
              unset eq_refl eq_refl eq_refl) as [Hpack Hunpack].
  split.
  - rewrite Hpack. reflexivity.
  - rewrite Hunpack. reflexivity.
Defined.

(* ===================================================================== *)
(** * Default bounds *)
(* ===================================================================== *)

Lemma unbounded_spec (h : list ParameterObj) (params : list entry)
    (opt : bool) :
  unbounded h params opt = true ->
  forall p a o, p ∈ params -> included h opt p = Some (a, o) ->
    _bounds o = None.
Proof.
  unfold unbounded. rewrite forallb_forall.
  intros Hall p a o Hp Hinc. apply list_elem_of_In in Hp.
  specialize (Hall p Hp). rewrite Hinc in Hall.
  by destruct (_bounds o).
Qed.

Lemma Parameter_bounds_default (o : ParameterObj) (n : nat) :
  _bounds o = None -> Parameter_len o = Ok n ->
  Parameter_bounds o
  = Ok (VList (replicate n neg_infinity), VList (replicate n infinity)).
Proof.
  intros Hb Hn. unfold Parameter_bounds. by rewrite Hb, Hn.
Qed.

Lemma setslice_fill (done : list float) (len_p k : nat) (v : float) :
  setslice (map Some done ++ replicate (len_p + k) None) (length done)
    len_p (VList (replicate len_p v))
  = Ok (map Some (done ++ replicate len_p v) ++ replicate k None).
Proof.
  pose proof (setslice_next done (replicate len_p v) k
                (VList (replicate len_p v)) eq_refl) as Hset.
  by rewrite length_replicate in Hset.
Qed.

(** Packing a bound of a collection without explicit bounds. *)
Lemma fill_default_bounds (params : list entry) (opt : bool) (lower : bool)
    (done : list float) (k : nat) (w : world) (n : nat) :
  (forall p a o, p ∈ params -> included (heap w) opt p = Some (a, o) ->
     _bounds o = None) ->
  expected_length (heap w) params opt = Ok n ->
  let key := if lower then "min_bound"%string else "max_bound"%string in
  let v := if lower then neg_infinity else infinity in
  fill params opt key (map Some done ++ replicate (n + k) None)
    (length done) w
  = (w, Ok (map Some (done ++ replicate n v) ++ replicate k None,
            length done + n, None)).
Proof.
  intros Hnob Hn key v. revert done n Hnob Hn.
  induction params as [|p params IH]; intros done n Hnob Hn.
  { simpl in *. injection Hn as <-. unfold ret. simpl.
    by rewrite app_nil_r, Nat.add_0_r. }
  assert (Hrest : forall q a o, q ∈ params ->
            included (heap w) opt q = Some (a, o) -> _bounds o = None).
  { intros q a o Hq. by apply Hnob, list_elem_of_further. }
  pose proof (Hnob p) as Hp. specialize (fun a o => Hp a o (list_elem_of_here _ _)).
  rewrite fill_cons. cbv zeta. simpl in Hn. unfold included in Hn, Hp.
  destruct (as_Parameter (heap w) p) as [[a o]|]; [ | by apply IH ].
  destruct (excluded opt o); [ by apply IH | ].
  destruct (Parameter_len o) as [len_p|e] eqn:Hlen; [ | done ].
  destruct (expected_length (heap w) params opt) as [m|e]; [ | done ].
  injection Hn as <-.
  rewrite (Parameter_bounds_default o len_p (Hp a o eq_refl) Hlen).
  assert (Hgoal :
    match setslice (map Some done ++ replicate (len_p + m + k) None)
            (length done) len_p (VList (replicate len_p v)) with
    | Ok out => fill params opt key out (length done + len_p) w
    | Raise e => (w, Raise e)
    end
    = (w, Ok (map Some (done ++ replicate (len_p + m) v) ++ replicate k None,
              length done + (len_p + m), None))).
  { rewrite <- Nat.add_assoc, setslice_fill.
    replace (length done + len_p) with (length (done ++ replicate len_p v))
      by (by rewrite length_app, length_replicate).
    rewrite (IH (done ++ replicate len_p v) m Hrest eq_refl).
    rewrite <- app_assoc, <- replicate_add, length_app, length_replicate.
    by rewrite Nat.add_assoc. }
  subst key v. destruct lower; simpl; exact Hgoal.
Qed.

(** X5: without explicit bounds a Parameter reports [-inf] and [+inf]
    once per slot it occupies, and over a collection without explicit
    bounds, with a positive total length, [params2ndarray] packs
    ['min_bound'] to all [-inf] and ['max_bound'] to all [+inf], of the
    length of the packed values, whatever the values are. *)
Theorem default_bounds_are_unbounded (params : list entry) (opt : bool)
    (w : world) (n : nat) :
  unbounded (heap w) params opt = true ->
  expected_length (heap w) params opt = Ok n -> n <> 0 ->
  let w1 := add_warnings (count_others (heap w) params) w in
  params2ndarray params opt "min_bound" w
  = (w1, Ok (VArr (replicate n neg_infinity)))
  /\ params2ndarray params opt "max_bound" w
     = (w1, Ok (VArr (replicate n infinity))).
Proof.
  intros Hnob Hn Hpos w1.
  pose proof (unbounded_spec _ _ _ Hnob) as Hspec.
  assert (Hpack : forall lower : bool,
    params2ndarray params opt (if lower then "min_bound" else "max_bound") w
    = (w1, Ok (VArr (replicate n (if lower then neg_infinity else infinity))))).
  { intros lower.
    rewrite params2ndarray_unfold, (count_length_Ok params opt 0 w n Hn).
    fold w1. change (0 + n) with n.
    apply Nat.eqb_neq in Hpos. rewrite Hpos.
    pose proof (fill_default_bounds params opt lower [] 0 w1 n Hspec Hn)
      as Hfill.
    cbv zeta in Hfill. simpl in Hfill. rewrite Nat.add_0_r in Hfill.
    unfold np_empty. rewrite Hfill.
    by rewrite Nat.eqb_refl, app_nil_r, freeze_written. }
  split; [ apply (Hpack true) | apply (Hpack false) ].
Qed.

Lemma default_bounds_are_unbounded_witness :
  params2ndarray Scenario.params false "min_bound" Scenario.w0
  = (Scenario.w0, Ok (VArr (replicate 6 neg_infinity)))
  /\ params2ndarray Scenario.params false "max_bound" Scenario.w0
     = (Scenario.w0, Ok (VArr (replicate 6 infinity))).
Proof.
  apply (default_bounds_are_unbounded Scenario.params false Scenario.w0 6);
    [ reflexivity | reflexivity | lia ].
Defined.

(* ===================================================================== *)
(** * What [update_params] keeps *)
(* ===================================================================== *)

Lemma set_value_attributes (o o' : ParameterObj) (v : PyVal) :
  set_value o v = Ok o' -> same_attributes o o'.
Proof.
  unfold set_value, ScalarParameter_set_value, Parameter_set_value.
  destruct (klass o) eqn:Hk.
  - by intros [= <-].
  - destruct v as [ | y | xs | xs | f | e | e | num | flag ]; try done;
      try (by intros [= <-]).
    destruct xs as [ | y [ | z xs ] ]; try done. by intros [= <-].
  - by intros [= <-].
Qed.

Lemma same_attributes_refl (h : list ParameterObj) :
  Forall2 same_attributes h h.
Proof. induction h; constructor; done. Qed.

Lemma same_attributes_insert (h : list ParameterObj) (a : nat)
    (o o' : ParameterObj) :
  h !! a = Some o -> same_attributes o o' ->
  Forall2 same_attributes h (<[a := o']> h).
Proof.
  intros Ha Hoo'. rewrite <- (list_insert_id h a o Ha) at 1.
  apply Forall2_insert; [ apply same_attributes_refl | done ].
Qed.

Lemma same_attributes_trans (h1 h2 h3 : list ParameterObj) :
  Forall2 same_attributes h1 h2 -> Forall2 same_attributes h2 h3 ->
  Forall2 same_attributes h1 h3.
Proof.
  apply Forall2_trans.
  intros o1 o2 o3 (? & ? & ? & ?) (? & ? & ? & ?).
  repeat split; congruence.
Qed.

Lemma assign_slices_attributes (params : list entry) (x : PyVal)
    (opt : bool) (idx : nat) (w : world) :
  Forall2 same_attributes (heap w)
    (heap (fst (assign_slices params x opt idx w))).
Proof.
  revert idx w.
  induction params as [|p params IH]; intros idx w;
    [ apply same_attributes_refl | ].
  rewrite assign_slices_cons.
  destruct (as_Parameter (heap w) p) as [[a o]|] eqn:Hp; [ | apply IH ].
  destruct (excluded opt o); [ apply IH | ].
  destruct (Parameter_len o) as [len_p|e];
    [ | apply same_attributes_refl ].
  destruct (len_p =? 0); [ apply same_attributes_refl | ].
  destruct (getslice x idx (idx + len_p)) as [v|e];
    [ | apply same_attributes_refl ].
  destruct (set_value o v) as [o'|e] eqn:Hset;
    [ | apply same_attributes_refl ].
  apply as_Parameter_Some in Hp as [-> Ha].
  eapply same_attributes_trans; [ | apply IH ]. simpl.
  eapply same_attributes_insert; [ done | ].
  by eapply set_value_attributes.
Qed.

(** Whether an entry is included depends on the flags only. *)
Lemma included_same_attributes (h h' : list ParameterObj) (opt : bool)
    (p : entry) :
  Forall2 same_attributes h h' ->
  match included h opt p with
  | Some (a, o) => exists o', included h' opt p = Some (a, o')
                              /\ h' !! a = Some o' /\ same_attributes o o'
  | None => included h' opt p = None
  end.
Proof.
  intros Hsame. unfold included.
  destruct p as [a|v]; simpl; [ | done ].
  destruct (h !! a) as [o|] eqn:Ha.
  - destruct (Forall2_lookup_l _ _ _ _ _ Hsame Ha) as (o' & Ha' & Hoo').
    pose proof Hoo' as (_ & Hopt & _).
    rewrite Ha'. unfold excluded. rewrite Hopt.
    destruct (opt && negb (optimize o)); [ done | ].
    exists o'. split; [ done | ]. by split.
  - apply lookup_ge_None in Ha.
    rewrite (Forall2_length _ _ _ Hsame) in Ha.
    apply lookup_ge_None in Ha. by rewrite Ha.
Qed.

Lemma included_addrs_same_attributes (h h' : list ParameterObj)
    (params : list entry) (opt : bool) :
  Forall2 same_attributes h h' ->
  included_addrs h' params opt = included_addrs h params opt.
Proof.
  intros Hsame.
  induction params as [|p params IH]; [ done | ].
  simpl. pose proof (included_same_attributes h h' opt p Hsame) as Hp.
  destruct (included h opt p) as [[a o]|].
  - destruct Hp as (o' & -> & _). by rewrite IH.
  - by rewrite Hp.
Qed.

Lemma assign_slices_not_included (params : list entry) (x : PyVal)
    (opt : bool) (idx : nat) (w : world) (a : nat) :
  a ∉ included_addrs (heap w) params opt ->
  heap (fst (assign_slices params x opt idx w)) !! a = heap w !! a.
Proof.
  revert idx w.
  induction params as [|p params IH]; intros idx w Hnot; [ done | ].
  rewrite assign_slices_cons. simpl in Hnot. unfold included in Hnot.
  destruct (as_Parameter (heap w) p) as [[b o]|] eqn:Hp; [ | by apply IH ].
  destruct (excluded opt o); [ by apply IH | ].
  apply not_elem_of_cons in Hnot as [Hne Hnot].
  destruct (Parameter_len o) as [len_p|e]; [ | done ].
  destruct (len_p =? 0); [ done | ].
  destruct (getslice x idx (idx + len_p)) as [v|e]; [ | done ].
  destruct (set_value o v) as [o'|e] eqn:Hset; [ | done ].
  apply as_Parameter_Some in Hp as [-> Hb].
  rewrite IH.
  - simpl. by apply list_lookup_insert_ne.
  - simpl.
    rewrite (included_addrs_same_attributes (heap w)); [ done | ].
    eapply same_attributes_insert; [ done | ].
    by eapply set_value_attributes.
Qed.

(** X6: whatever the vector and whether it fails or not, [update_params]
    issues no warning, creates or removes no object, changes no class,
    [optimize] flag, bounds or original value, and leaves every object it
    does not include (excluded, or not in the collection) exactly as it
    was. *)
Theorem update_params_frame (params : list entry) (x : PyVal) (opt : bool)
    (w : world) :
  let w' := fst (update_params params x opt w) in
  warned w' = warned w
  /\ Forall2 same_attributes (heap w) (heap w')
  /\ (forall a, a ∉ included_addrs (heap w) params opt ->
        heap w' !! a = heap w !! a).
Proof.
  intros w'. subst w'. rewrite update_params_unfold.
  pose proof (assign_slices_frame params x opt 0 w) as [Hwarned _].
  pose proof (assign_slices_attributes params x opt 0 w) as Hattr.
  pose proof (assign_slices_not_included params x opt 0 w) as Hout.
  destruct (assign_slices params x opt 0 w) as [w1 [idx|e]]; [ | done ].
  destruct (py_len x) as [n|e]; [ | done ].
  by destruct (idx =? n).
Qed.

Lemma getslice_sequence (x : PyVal) (i j : nat) (v : PyVal) :
  getslice x i j = Ok v -> exists ys, v = VArr ys \/ v = VList ys.
Proof.
  destruct x as [ | y | xs | xs | f | e | e | num | flag ]; try done; simpl;
    intros [= <-]; eauto.
Qed.

Lemma set_value_scalar (o o' : ParameterObj) (v : PyVal) :
  set_value o v = Ok o' -> klass o = ScalarParameter_cls ->
  (exists ys, v = VArr ys \/ v = VList ys) ->
  exists y, _value o' = VFloat y.
Proof.
  unfold set_value. intros Hset Hk (ys & [-> | ->]); rewrite Hk in Hset.
  - unfold ScalarParameter_set_value in Hset.
    destruct ys as [ | y [ | z ys ] ]; try done.
    injection Hset as <-. by exists y.
  - done.
Qed.

Lemma same_length_insert (h : list ParameterObj) (a : nat)
    (o o' : ParameterObj) :
  h !! a = Some o -> Parameter_len o' = Parameter_len o ->
  Forall2 same_length h (<[a := o']> h).
Proof.
  intros Ha Hlen. rewrite <- (list_insert_id h a o Ha) at 1.
  apply Forall2_insert; [ | done ].
  clear. induction h; constructor; done.
Qed.

Lemma same_length_trans (h1 h2 h3 : list ParameterObj) :
  Forall2 same_length h1 h2 -> Forall2 same_length h2 h3 ->
  Forall2 same_length h1 h3.
Proof.
  apply Forall2_trans. unfold same_length. congruence.
Qed.

(** A walk that stays inside the vector gives every object a value of
    the length it had. *)
Lemma assign_slices_lengths (params : list entry) (x : PyVal) (opt : bool)
    (idx : nat) (w w' : world) (idx' n : nat) :
  py_len x = Ok n ->
  assign_slices params x opt idx w = (w', Ok idx') -> idx' <= n ->
  Forall2 same_length (heap w) (heap w').
Proof.
  intros Hn. revert idx w.
  induction params as [|p params IH]; intros idx w.
  { simpl. unfold ret. intros [= <- _] _.
    induction (heap w); constructor; done. }
  rewrite assign_slices_cons.
  destruct (as_Parameter (heap w) p) as [[a o]|] eqn:Hp; [ | apply IH ].
  destruct (excluded opt o); [ apply IH | ].
  destruct (Parameter_len o) as [len_p|e] eqn:Hlen; [ | done ].
  destruct (len_p =? 0); [ done | ].
  destruct (getslice x idx (idx + len_p)) as [v|e] eqn:Hv; [ | done ].
  destruct (set_value o v) as [o'|e] eqn:Hset; [ | done ].
  intros Hrest Hle.
  pose proof (assign_slices_mono _ _ _ _ _ _ _ Hrest) as Hmono.
  pose proof (getslice_len x idx (idx + len_p) n v Hn Hv) as Hvlen.
  replace (idx + len_p - idx) with len_p in Hvlen by lia.
  destruct (set_value_len o o' v len_p Hset) as [Hlen' _];
    [ apply Hvlen; lia | ].
  apply as_Parameter_Some in Hp as [-> Ha].
  eapply same_length_trans; [ | apply (IH _ _ Hrest Hle) ].
  simpl. apply (same_length_insert _ _ o); [ done | congruence ].
Qed.

Lemma assign_slices_scalars (params : list entry) (x : PyVal) (opt : bool)
    (idx : nat) (w w' : world) (idx' : nat) (a : nat) (o' : ParameterObj) :
  assign_slices params x opt idx w = (w', Ok idx') ->
  a ∈ included_addrs (heap w) params opt ->
  heap w' !! a = Some o' -> klass o' = ScalarParameter_cls ->
  exists y, _value o' = VFloat y.
Proof.
  revert idx w.
  induction params as [|p params IH]; intros idx w Hrun Hin Ha' Hk.
  { by apply elem_of_nil in Hin. }
  rewrite assign_slices_cons in Hrun. simpl in Hin. unfold included in Hin.
  destruct (as_Parameter (heap w) p) as [[b ob]|] eqn:Hp;
    [ | by eapply IH ].
  destruct (excluded opt ob); [ by eapply IH | ].
  destruct (Parameter_len ob) as [len_p|e]; [ | done ].
  destruct (len_p =? 0); [ done | ].
  destruct (getslice x idx (idx + len_p)) as [v|e] eqn:Hv; [ | done ].
  destruct (set_value ob v) as [ob'|e] eqn:Hset; [ | done ].
  apply as_Parameter_Some in Hp as [-> Hb].
  set (w1 := {| heap := <[b := ob']> (heap w); warned := warned w |}) in *.
  assert (Haddrs : included_addrs (heap w1) params opt
                   = included_addrs (heap w) params opt).
  { apply included_addrs_same_attributes. simpl.
    eapply same_attributes_insert; [ done | ].
    by eapply set_value_attributes. }
  destruct (decide (a ∈ included_addrs (heap w1) params opt)) as [Hlater | Hno].
  - by eapply (IH _ w1).
  - pose proof (assign_slices_not_included params x opt (idx + len_p) w1 a Hno)
      as Hsame.
    rewrite Hrun in Hsame. simpl in Hsame.
    rewrite Haddrs in Hno.
    apply elem_of_cons in Hin as [-> | Hin]; [ | done ].
    rewrite list_lookup_insert_eq in Hsame by (by eapply lookup_lt_Some).
    rewrite Ha' in Hsame. injection Hsame as ->.
    apply (set_value_scalar ob ob' v Hset).
    + destruct (set_value_attributes _ _ _ Hset) as [Hkk _]. congruence.
    + by eapply getslice_sequence.
Qed.

(** X7: when [update_params] succeeds, every object has the length it had
    before (a 3-vector still has 3 elements, a scalar still counts 1) and
    every [ScalarParameter] it assigned holds a plain number. *)
Theorem update_params_keeps_shapes (params : list entry) (x : PyVal)
    (opt : bool) (w w' : world) :
  update_params params x opt w = (w', Ok tt) ->
  Forall2 same_length (heap w) (heap w')
  /\ (forall a o',
        a ∈ included_addrs (heap w) params opt ->
        heap w' !! a = Some o' -> klass o' = ScalarParameter_cls ->
        exists y, _value o' = VFloat y).
Proof.
  rewrite update_params_unfold.
  destruct (assign_slices params x opt 0 w) as [w1 [idx|e]] eqn:Hloop;
    [ | done ].
  destruct (py_len x) as [n|e] eqn:Hn; [ | done ].
  destruct (Nat.eqb_spec idx n) as [-> | Hne]; [ | done ].
  intros [= <-]. split.
  - by apply (assign_slices_lengths params x opt 0 w w1 n n).
  - intros a o'. by apply (assign_slices_scalars params x opt 0 w w1 n).
Qed.

Lemma update_params_keeps_shapes_witness :
  exists w',
    update_params Scenario.params Scenario.x9 true Scenario.w0 = (w', Ok tt)
    /\ map Parameter_len (heap w') = [Ok 1; Ok 1; Ok 3; Ok 1].
Proof.
  eexists. split; [ reflexivity | ].
  destruct (update_params_keeps_shapes Scenario.params Scenario.x9 true
              Scenario.w0 _ eq_refl) as [Hlen _].
  reflexivity.
Defined.

(* ===================================================================== *)
(** * Unpacking, then packing *)
(* ===================================================================== *)

Lemma slice_split {A : Type} (xs : list A) (i j k : nat) :
  i <= j -> j <= k -> slice xs i k = slice xs i j ++ slice xs j k.
Proof.
  intros Hij Hjk. unfold slice.
  replace (k - i) with ((j - i) + (k - j)) by lia.
  rewrite <- take_take_drop, drop_drop.
  by replace (i + (j - i)) with j by lia.
Qed.

Lemma slice_empty {A : Type} (xs : list A) (i : nat) : slice xs i i = [].
Proof. unfold slice. by rewrite Nat.sub_diag. Qed.

Lemma slice_all {A : Type} (xs : list A) : slice xs 0 (length xs) = xs.
Proof. unfold slice. rewrite Nat.sub_0_r. simpl. apply firstn_all. Qed.

Lemma set_value_numeric (o o' : ParameterObj) (seg : list float) :
  set_value o (VArr seg) = Ok o' ->
  numeric (_value o') = Some seg /\ Parameter_value o' = _value o'.
Proof.
  unfold set_value, ScalarParameter_set_value, Parameter_set_value,
    Parameter_value.
  destruct (klass o).
  - by intros [= <-].
  - destruct seg as [ | y [ | z seg ] ]; try done. by intros [= <-].
  - by intros [= <-].
Qed.

(** After a walk that stayed inside the vector, over distinct objects,
    packing the values reads back the part of the vector the walk
    consumed. *)
Lemma fill_after_assign (params : list entry) (X : list float) (opt : bool)
    (idx : nat) (w w' : world) (idx' : nat) (done : list float) (k : nat) :
  assign_slices params (VArr X) opt idx w = (w', Ok idx') ->
  idx' <= length X ->
  NoDup (included_addrs (heap w) params opt) ->
  fill params opt "value"
    (map Some done ++ replicate ((idx' - idx) + k) None) (length done) w'
  = (w', Ok (map Some (done ++ slice X idx idx') ++ replicate k None,
             length done + (idx' - idx), None)).
Proof.
  revert idx w done.
  induction params as [|p params IH]; intros idx w done Hrun Hle Hnodup.
  { simpl in Hrun. unfold ret in Hrun. injection Hrun as <- <-.
    simpl. unfold ret.
    by rewrite slice_empty, Nat.sub_diag, app_nil_r, Nat.add_0_r. }
  pose proof (assign_slices_attributes (p :: params) (VArr X) opt idx w)
    as Hattr.
  rewrite Hrun in Hattr. simpl in Hattr.
  pose proof (included_same_attributes _ _ opt p Hattr) as Hp'.
  rewrite assign_slices_cons in Hrun. simpl in Hnodup.
  rewrite fill_cons. cbv zeta. unfold included in Hp', Hnodup.
  destruct (as_Parameter (heap w) p) as [[a o]|] eqn:Hp.
  2: { apply included_None in Hp'.
       destruct (as_Parameter (heap w') p) as [[b ob]|];
         [ rewrite Hp' | ]; by eapply IH. }
  destruct (excluded opt o) eqn:Hex.
  { apply included_None in Hp'.
    destruct (as_Parameter (heap w') p) as [[b ob]|];
      [ rewrite Hp' | ]; by eapply IH. }
  destruct (Parameter_len o) as [len_p|e] eqn:Hlen; [ | done ].
  destruct (len_p =? 0); [ done | ].
  simpl in Hrun.
  destruct (set_value o (VArr (slice X idx (idx + len_p)))) as [o'|e]
    eqn:Hset; [ | done ].
  apply as_Parameter_Some in Hp as [-> Ha].
  set (seg := slice X idx (idx + len_p)) in *.
  set (w1 := {| heap := <[a := o']> (heap w); warned := warned w |}) in *.
  pose proof (assign_slices_mono _ _ _ _ _ _ _ Hrun) as Hmono.
  assert (Hseg : length seg = len_p).
  { unfold seg. rewrite slice_length by lia. lia. }
  apply NoDup_cons in Hnodup as [Hfresh Hnodup].
  assert (Haddrs : included_addrs (heap w1) params opt
                   = included_addrs (heap w) params opt).
  { apply included_addrs_same_attributes. simpl.
    eapply same_attributes_insert; [ done | ].
    by eapply set_value_attributes. }
  assert (Ha' : heap w' !! a = Some o').
  { pose proof (assign_slices_not_included params (VArr X) opt
                  (idx + len_p) w1 a) as Hkeep.
    rewrite Hrun, Haddrs in Hkeep. simpl in Hkeep.
    rewrite (Hkeep Hfresh).
    apply list_lookup_insert_eq. by eapply lookup_lt_Some. }
  destruct Hp' as (o'' & Hinc & Ha'' & _).
  rewrite Ha' in Ha''. injection Ha'' as <-.
  apply included_Some in Hinc as [-> ->].
  destruct (set_value_len o o' (VArr seg) len_p Hset) as [-> _];
    [ simpl; by rewrite Hseg | ].
  destruct (set_value_numeric o o' seg Hset) as [Hnum ->].
  replace (idx' - idx + k) with (length seg + ((idx' - (idx + len_p)) + k))
    by lia.
  assert (Hset' : setslice
            (map Some done
             ++ replicate (length seg + (idx' - (idx + len_p) + k)) None)
            (length done) len_p (_value o')
          = Ok (map Some (done ++ seg)
                ++ replicate (idx' - (idx + len_p) + k) None)).
  { rewrite <- Hseg. apply (setslice_next done seg _ _ Hnum). }
  rewrite Hset'.
  replace (length done + len_p) with (length (done ++ seg))
    by (rewrite length_app; lia).
  rewrite (IH (idx + len_p) w1 (done ++ seg) Hrun Hle)
    by (by rewrite Haddrs).
  rewrite (slice_split X idx (idx + len_p) idx') by lia.
  fold seg. rewrite <- app_assoc, length_app. simpl.
  by replace (length done + length seg + (idx' - (idx + len_p)))
    with (length done + (idx' - idx)) by lia.
Qed.

Lemma expected_length_same (h h' : list ParameterObj) (params : list entry)
    (opt : bool) :
  Forall2 same_attributes h h' -> Forall2 same_length h h' ->
  expected_length h' params opt = expected_length h params opt.
Proof.
  intros Hattr Hlen.
  induction params as [|p params IH]; [ done | ].
  simpl. rewrite IH.
  pose proof (included_same_attributes h h' opt p Hattr) as Hp.
  destruct (included h opt p) as [[a o]|] eqn:Hinc; [ | by rewrite Hp ].
  destruct Hp as (o' & -> & Ha' & _).
  apply included_Some in Hinc as [Hp _].
  apply as_Parameter_Some in Hp as [_ Ha].
  by rewrite (Forall2_lookup_lr _ _ _ _ _ _ Hlen Ha Ha').
Qed.

(** X8: over a collection whose included entries are distinct objects,
    a vector that [update_params] accepts is what [params2ndarray] then
    packs from the values: unpacking followed by packing gives the vector
    back, element for element. *)
Theorem unpack_then_pack (params : list entry) (xs : list float)
    (opt : bool) (w w' : world) :
  NoDup (included_addrs (heap w) params opt) -> xs <> [] ->
  update_params params (VArr xs) opt w = (w', Ok tt) ->
  params2ndarray params opt "value" w'
  = (add_warnings (count_others (heap w') params) w', Ok (VArr xs)).
Proof.
  intros Hnodup Hne. rewrite update_params_unfold.
  destruct (assign_slices params (VArr xs) opt 0 w) as [w1 [idx|e]]
    eqn:Hloop; [ | done ].
  simpl. destruct (Nat.eqb_spec idx (length xs)) as [-> | Hidx]; [ | done ].
  intros [= <-].
  assert (Hlen : expected_length (heap w1) params opt = Ok (length xs)).
  { rewrite (expected_length_same (heap w) (heap w1)).
    - rewrite (assign_slices_in_range params (VArr xs) opt 0 w w1
                 (length xs) (length xs) eq_refl Hloop) by lia.
      f_equal. lia.
    - pose proof (assign_slices_attributes params (VArr xs) opt 0 w) as Hattr.
      by rewrite Hloop in Hattr.
    - by apply (assign_slices_lengths params (VArr xs) opt 0 w w1
                  (length xs) (length xs)). }
  rewrite params2ndarray_unfold, (count_length_Ok params opt 0 w1 _ Hlen).
  change (0 + length xs) with (length xs).
  destruct (Nat.eqb_spec (length xs) 0) as [Hz | _];
    [ by destruct xs | ].
  set (w2 := add_warnings (count_others (heap w1) params) w1).
  rewrite (fill_pure params opt "value" (np_empty (length xs)) 0 w2 w1)
    by done.
  pose proof (fill_after_assign params xs opt 0 w w1 (length xs) [] 0
                Hloop (le_n _) Hnodup) as Hfill.
  simpl in Hfill.
  rewrite Nat.sub_0_r, Nat.add_0_r, slice_all, app_nil_r in Hfill.
  unfold np_empty. rewrite Hfill. simpl.
  by rewrite Nat.eqb_refl, freeze_written.
Qed.

Lemma unpack_then_pack_witness :
  exists w',
    update_params Scenario.params Scenario.x9 true Scenario.w0 = (w', Ok tt)
    /\ params2ndarray Scenario.params true "value" w' = (w', Ok Scenario.x9).
Proof.
  eexists. split; [ reflexivity | ].
  apply (unpack_then_pack Scenario.params [9; -9; 7; 8; 9]%float true
           Scenario.w0).
  - repeat constructor; vm_compute; intros Hin;
      repeat (apply elem_of_cons in Hin as [Hin | Hin]; [ discriminate | ]);
      by apply elem_of_nil in Hin.
  - discriminate.
  - reflexivity.
Defined.

(* ===================================================================== *)
(** * Unpacking a concatenated problem *)
(* ===================================================================== *)

Lemma slice_app_l {A : Type} (xs ys : list A) (i j : nat) :
  j <= length xs -> slice (xs ++ ys) i j = slice xs i j.
Proof.
  intros Hj. unfold slice.
  destruct (decide (i <= length xs)) as [Hi | Hi].
  - rewrite drop_app_le by done.
    apply take_app_le. rewrite length_drop. lia.
  - replace (j - i) with 0 by lia. done.
Qed.

Lemma slice_app_r {A : Type} (xs ys : list A) (i j : nat) :
  slice (xs ++ ys) (length xs + i) (length xs + j) = slice ys i j.
Proof.
  unfold slice. rewrite drop_app_add' by done.
  by replace (length xs + j - (length xs + i)) with (j - i) by lia.
Qed.

(** A walk that stays inside [xs] does not see what follows [xs]. *)
Lemma assign_slices_extend (params : list entry) (xs ys : list float)
    (opt : bool) (idx : nat) (w w' : world) (idx' : nat) :
  assign_slices params (VArr xs) opt idx w = (w', Ok idx') ->
  idx' <= length xs ->
  assign_slices params (VArr (xs ++ ys)) opt idx w = (w', Ok idx').
Proof.
  revert idx w.
  induction params as [|p params IH]; intros idx w; [ done | ].
  rewrite !assign_slices_cons.
  destruct (as_Parameter (heap w) p) as [[a o]|]; [ | apply IH ].
  destruct (excluded opt o); [ apply IH | ].
  destruct (Parameter_len o) as [len_p|e]; [ | done ].
  destruct (len_p =? 0); [ done | ].
  simpl getslice. cbv iota beta.
  destruct (set_value o (VArr (slice xs idx (idx + len_p)))) as [o'|e]
    eqn:Hset; [ | done ].
  intros Hrest Hle.
  pose proof (assign_slices_mono _ _ _ _ _ _ _ Hrest) as Hmono.
  rewrite slice_app_l by lia. rewrite Hset. by apply IH.
Qed.

(** A walk that starts after [xs] is the walk over what follows [xs]. *)
Lemma assign_slices_shift (params : list entry) (xs ys : list float)
    (opt : bool) (idx : nat) (w : world) :
  assign_slices params (VArr (xs ++ ys)) opt (length xs + idx) w
  = (fst (assign_slices params (VArr ys) opt idx w),
     match snd (assign_slices params (VArr ys) opt idx w) with
     | Ok idx' => Ok (length xs + idx')
     | Raise e => Raise e
     end).
Proof.
  revert idx w.
  induction params as [|p params IH]; intros idx w; [ done | ].
  rewrite !assign_slices_cons.
  destruct (as_Parameter (heap w) p) as [[a o]|]; [ | apply IH ].
  destruct (excluded opt o); [ apply IH | ].
  destruct (Parameter_len o) as [len_p|e]; [ | done ].
  destruct (len_p =? 0); [ done | ].
  simpl getslice. cbv iota beta.
  rewrite <- Nat.add_assoc, slice_app_r.
  destruct (set_value o (VArr (slice ys idx (idx + len_p)))) as [o'|e];
    [ | done ].
  apply IH.
Qed.

(** X9: unpacking composes.  When [update_params] accepts [xs] for the
    collection [ps], unpacking [xs ++ ys] into [ps ++ qs] is unpacking
    [ys] into [qs] in the state the first unpacking has left: same final
    objects, same outcome. *)
Theorem update_params_app (ps qs : list entry) (xs ys : list float)
    (opt : bool) (w w1 : world) :
  update_params ps (VArr xs) opt w = (w1, Ok tt) ->
  update_params (ps ++ qs) (VArr (xs ++ ys)) opt w
  = update_params qs (VArr ys) opt w1.
Proof.
  rewrite !update_params_unfold.
  destruct (assign_slices ps (VArr xs) opt 0 w) as [w' [idx|e]] eqn:Hps;
    [ | done ].
  simpl py_len. cbv iota beta.
  destruct (Nat.eqb_spec idx (length xs)) as [-> | Hne]; [ | done ].
  intros [= ->].
  rewrite assign_slices_app.
  rewrite (assign_slices_extend ps xs ys opt 0 w w1 (length xs) Hps (le_n _)).
  pose proof (assign_slices_shift qs xs ys opt 0 w1) as Hshift.
  rewrite Nat.add_0_r in Hshift. rewrite Hshift.
  destruct (assign_slices qs (VArr ys) opt 0 w1) as [w2 [idx|e]]; [ | done ].
  simpl. rewrite length_app.
  destruct (Nat.eqb_spec idx (length ys)) as [-> | Hne].
  - by rewrite Nat.eqb_refl.
  - destruct (Nat.eqb_spec (length xs + idx) (length xs + length ys));
      [ lia | done ].
Qed.

Lemma update_params_app_witness :
  exists w1,
    update_params [Ref 0; Ref 1] (VArr [9; -9]%float) true Scenario.w0
    = (w1, Ok tt)
    /\ update_params ([Ref 0; Ref 1] ++ [Ref 2; Ref 3])
         (VArr ([9; -9] ++ [7; 8; 9])%float) true Scenario.w0
       = update_params [Ref 2; Ref 3] (VArr [7; 8; 9]%float) true w1.
Proof.
  eexists. split; [ reflexivity | ].
  apply (update_params_app [Ref 0; Ref 1] [Ref 2; Ref 3]).
  reflexivity.
Defined.

(* ===================================================================== *)
(** * Assigning and reading a value; construction *)
(* ===================================================================== *)

(** X10: what a read gives after an assignment.  Whatever the Parameter
    held (a producer included), once a setter has accepted a concrete
    value the getter hands back what was assigned: the value itself for
    a [Parameter] or [VectorParameter]; for a [ScalarParameter] the
    single element, as a plain number, of a one-element array, and
    otherwise the value itself, which is then [None] or a scalar in
    NumPy's sense (a float, an [int], a boolean); class, flag, bounds and
    original value are as before. *)
Theorem set_then_get (p p' : ParameterObj) (v : PyVal) :
  set_value p v = Ok p' -> callable v = false ->
  same_attributes p p'
  /\ numeric (Parameter_value p') = numeric v
  /\ (klass p <> ScalarParameter_cls -> Parameter_value p' = v)
  /\ (klass p = ScalarParameter_cls ->
        match v with
        | VArr xs => exists y, xs = [y] /\ Parameter_value p' = VFloat y
        | _ => Parameter_value p' = v /\ (v = VNone \/ np_isscalar v = true)
        end).
Proof.
  intros Hset Hcall.
  split; [ by eapply set_value_attributes | ].
  unfold set_value, ScalarParameter_set_value, Parameter_set_value in Hset.
  unfold Parameter_value.
  destruct (klass p) eqn:Hk.
  - injection Hset as <-. simpl. rewrite Hcall. by repeat split.
  - destruct v as [ | y | xs | xs | f | e | e | num | flag ]; try done.
    + injection Hset as <-. simpl.
      split; [ done | ]. split; [ done | ]. intros _. split; [ done | by left ].
    + injection Hset as <-. simpl.
      split; [ done | ]. split; [ done | ]. intros _. split; [ done | by right ].
    + destruct xs as [ | y [ | z xs ] ]; try done.
      injection Hset as <-. simpl.
      split; [ done | ]. split; [ done | ]. intros _. by exists y.
    + injection Hset as <-. simpl.
      split; [ done | ]. split; [ done | ]. intros _. split; [ done | by right ].
    + injection Hset as <-. simpl.
      split; [ done | ]. split; [ done | ]. intros _. split; [ done | by right ].
  - injection Hset as <-. simpl. rewrite Hcall. by repeat split.
Qed.

Lemma set_then_get_witness :
  exists p',
    set_value Scenario.lazy5 (VArr [7%float]) = Ok p'
    /\ Parameter_value p' = VFloat 7
    /\ _value_original p' = _value_original Scenario.lazy5.
Proof.
  eexists. split; [ reflexivity | ].
  destruct (set_then_get Scenario.lazy5 _ (VArr [7%float]) eq_refl eq_refl)
    as ((_ & _ & _ & Horig) & _).
  split; [ reflexivity | exact Horig ].
Defined.

(** X11: a [VectorParameter] that has been constructed holds an ndarray
    of the three numbers given, counts three slots, is shape-valid, keeps
    the flag and bounds it was given, and without bounds reports three
    [-inf] and three [+inf]. *)
Theorem VectorParameter_init_establishes (v : PyVal) (opt : bool)
    (b : option (PyVal * PyVal)) (o : ParameterObj) :
  VectorParameter_init v opt b = Ok o ->
  klass o = VectorParameter_cls /\ optimize o = opt /\ _bounds o = b
  /\ _value_original o = _value o
  /\ (exists xs, numeric v = Some xs /\ Parameter_value o = VArr xs
                 /\ length xs = 3)
  /\ Parameter_len o = Ok 3
  /\ shape_valid o = true /\ canonical o = true
  /\ (b = None ->
      Parameter_bounds o
      = Ok (VList (replicate 3 neg_infinity), VList (replicate 3 infinity))).
Proof.
  unfold VectorParameter_init, np_array.
  assert (Hmk : forall xs, length xs = 3 ->
            let o := Parameter_init VectorParameter_cls (VArr xs) opt b in
            Parameter_len o = Ok 3 /\ shape_valid o = true
            /\ (b = None -> Parameter_bounds o
                  = Ok (VList (replicate 3 neg_infinity),
                        VList (replicate 3 infinity)))).
  { intros xs Hxs o0. unfold Parameter_len, shape_valid. simpl.
    rewrite Hxs. repeat split; try done.
    intros ->. unfold Parameter_bounds, Parameter_len. simpl. by rewrite Hxs. }
  destruct v as [ | y | xs | xs | f | e | e | num | flag ]; try done;
    destruct (Nat.eqb_spec (length xs) 3) as [Hxs | Hxs]; try done;
    intros [= <-]; destruct (Hmk xs Hxs) as (? & ? & ?);
    repeat split; try done; exists xs; by repeat split.
Qed.

Lemma VectorParameter_init_establishes_witness :
  Parameter_len Scenario.vec123 = Ok 3
  /\ Parameter_value Scenario.vec123 = VArr [1; 2; 3]%float.
Proof.
  destruct (VectorParameter_init_establishes (VList [1; 2; 3]%float) true
              None Scenario.vec123 eq_refl)
    as (_ & _ & _ & _ & _ & Hlen & _).
  split; [ exact Hlen | reflexivity ].
Defined.

(* ===================================================================== *)
(** * [optimizable_only] *)
(* ===================================================================== *)

Lemma excluded_all_optimizable (h : list ParameterObj) (p : entry) (a : nat)
    (o : ParameterObj) (opt : bool) :
  Forall (fun o => optimize o = true) h ->
  as_Parameter h p = Some (a, o) -> excluded opt o = false.
Proof.
  intros Hall [_ Ha]%as_Parameter_Some.
  rewrite Forall_lookup in Hall. specialize (Hall a o Ha).
  unfold excluded. rewrite Hall. by destruct opt.
Qed.

Lemma count_length_all_optimizable (params : list entry) (opt : bool)
    (total : nat) (w : world) :
  Forall (fun o => optimize o = true) (heap w) ->
  count_length params opt total w = count_length params false total w.
Proof.
  revert total w.
  induction params as [|p params IH]; intros total w Hall; [ done | ].
  rewrite !count_length_cons.
  destruct (as_Parameter (heap w) p) as [[a o]|] eqn:Hp; [ | by apply IH ].
  rewrite !(excluded_all_optimizable _ _ _ _ _ Hall Hp).
  destruct (Parameter_len o); [ by apply IH | done ].
Qed.

Lemma fill_all_optimizable (params : list entry) (opt : bool) (key : string)
    (out : buffer) (idx : nat) (w : world) :
  Forall (fun o => optimize o = true) (heap w) ->
  fill params opt key out idx w = fill params false key out idx w.
Proof.
  intros Hall. revert out idx.
  induction params as [|p params IH]; intros out idx; [ done | ].
  rewrite !fill_cons. cbv zeta.
  destruct (as_Parameter (heap w) p) as [[a o]|] eqn:Hp; [ | by apply IH ].
  rewrite !(excluded_all_optimizable _ _ _ _ _ Hall Hp).
  destruct (Parameter_len o) as [len_p|e]; [ | done ].
  destruct (key =? "value")%string.
  { destruct (setslice out idx len_p (Parameter_value o)); [ apply IH | done ]. }
  destruct (key =? "min_bound")%string.
  { destruct (Parameter_bounds o) as [b|e]; [ | done ].
    destruct (setslice out idx len_p b.1); [ apply IH | done ]. }
  destruct (key =? "max_bound")%string; [ | done ].
  destruct (Parameter_bounds o) as [b|e]; [ | done ].
  destruct (setslice out idx len_p b.2); [ apply IH | done ].
Qed.

Lemma assign_slices_all_optimizable (params : list entry) (x : PyVal)
    (opt : bool) (idx : nat) (w : world) :
  Forall (fun o => optimize o = true) (heap w) ->
  assign_slices params x opt idx w = assign_slices params x false idx w.
Proof.
  revert idx w.
  induction params as [|p params IH]; intros idx w Hall; [ done | ].
  rewrite !assign_slices_cons.
  destruct (as_Parameter (heap w) p) as [[a o]|] eqn:Hp; [ | by apply IH ].
  rewrite !(excluded_all_optimizable _ _ _ _ _ Hall Hp).
  destruct (Parameter_len o) as [len_p|e]; [ | done ].
  destruct (len_p =? 0); [ done | ].
  destruct (getslice x idx (idx + len_p)) as [v|e]; [ | done ].
  destruct (set_value o v) as [o'|e] eqn:Hset; [ | done ].
  apply IH. simpl.
  apply as_Parameter_Some in Hp as [_ Ha].
  apply Forall_insert; [ done | ].
  destruct (set_value_attributes _ _ _ Hset) as (_ & -> & _).
  rewrite Forall_lookup in Hall. by apply (Hall a).
Qed.

(** X12: [optimizable_only] only matters for Parameters with
    [optimize=False]: when every Parameter has [optimize=True], packing
    and unpacking do the same with [optimizable_only=True] as with
    [optimizable_only=False], for every collection, key and vector. *)
Theorem optimizable_only_is_immaterial (params : list entry) (key : string)
    (x : PyVal) (w : world) :
  Forall (fun o => optimize o = true) (heap w) ->
  params2ndarray params true key w = params2ndarray params false key w
  /\ update_params params x true w = update_params params x false w.
Proof.
  intros Hall. split.
  - rewrite !params2ndarray_unfold.
    rewrite (count_length_all_optimizable params true 0 w Hall).
    pose proof (count_length_heap params false 0 w) as Hh.
    destruct (count_length params false 0 w) as [w1 [total|e]]; [ | done ].
    simpl in Hh. destruct (total =? 0); [ done | ].
    by rewrite (fill_all_optimizable params true key _ _ w1)
      by (by rewrite Hh).
  - rewrite !update_params_unfold.
    by rewrite (assign_slices_all_optimizable params x true 0 w Hall).
Qed.

Lemma optimizable_only_is_immaterial_witness :
  params2ndarray [Ref 0; Ref 1; Ref 2] false "value"
    {| heap := take 3 Scenario.objects; warned := [] |}
  = ({| heap := take 3 Scenario.objects; warned := [] |},
     Ok (VArr [2; -1; 1; 2; 3]%float)).
Proof.
  destruct (optimizable_only_is_immaterial [Ref 0; Ref 1; Ref 2] "value"
              VNone {| heap := take 3 Scenario.objects; warned := [] |})
    as [<- _].
  - by repeat constructor.
  - reflexivity.
Defined.

(* ===================================================================== *)
(** * Failures and results of the driver *)
(* ===================================================================== *)

(** X13: a failure of the solver is not caught: when the steps before it
    succeed and [least_squares] raises, [run_calibration] raises the same
    exception, in the state the solver left; and when one of the steps
    before it raises (packing the start vector included), so does
    [run_calibration], without reaching the solver. *)
Theorem run_calibration_propagates `{C : Collaborators}
    (geoms : list Geom) (markers : Markers) (data : Data)
    (plot_dets verbose : bool) (s : world * ext) :
  match solver_input geoms markers data s with
  | (s', Raise e) =>
      run_calibration geoms markers data plot_dets verbose s = (s', Raise e)
  | (s', Ok (_, problem, x0, bounds)) =>
      forall s'' e,
        least_squares problem x0 bounds s' = (s'', Raise e) ->
        run_calibration geoms markers data plot_dets verbose s
        = (s'', Raise e)
  end.
Proof.
  unfold solver_input, run_calibration, bind.
  destruct (deepcopy geoms s) as [s1 [gi|e]]; [ | done ].
  destruct (XrayOptimizationProblem markers geoms data s1)
    as [s2 [pb|e]]; [ | done ].
  destruct (problem_params pb s2) as [s3 [ps|e]]; [ | done ].
  destruct (on_world (params2ndarray ps true "value") s3)
    as [s4 [x0|e]]; [ | done ].
  destruct (problem_bounds pb s4) as [s5 [b|e]]; [ | done ].
  simpl. intros s'' e Hsolve. by rewrite Hsolve.
Qed.

Lemma run_calibration_propagates_witness :
  run_calibration (C := stalled_rig) [Rig.geom_at 0] [] tt false false
    Rig.start
  = (Rig.start, Raise (OtherException "RuntimeError")).
Proof.
  apply (run_calibration_propagates (C := stalled_rig) [Rig.geom_at 0] [] tt
           false false Rig.start Rig.start (OtherException "RuntimeError")).
  reflexivity.
Defined.





Lemma marker_loop_S `{C : Collaborators} (n : nat) (geoms : list Geom)
    (data : Data) (markers : option Markers) (s : session) :
  marker_loop (S n) geoms data markers s
  = match one_pass geoms data s with
    | (s', Ok m) => marker_loop n geoms data (Some m) s'
    | (s', Raise e) => (s', Raise e)
    end.
Proof.
  simpl. unfold one_pass, bind, ret.
  destruct (invoke Triangulate _ s) as [s1 [m|e]]; [ | done ].
  by destruct (invoke Calibrate _ s1) as [s2 [[]|e]].
Qed.

(** The last pass of the loop, taken apart. *)
Lemma marker_loop_last `{C : Collaborators} (n : nat) (geoms : list Geom)
    (data : Data) (markers : option Markers) (s : session) :
  marker_loop (S n) geoms data markers s
  = match marker_loop n geoms data markers s with
    | (s', Ok _) =>
        match one_pass geoms data s' with
        | (s'', Ok m) => (s'', Ok (Some m))
        | (s'', Raise e) => (s'', Raise e)
        end
    | (s', Raise e) => (s', Raise e)
    end.
Proof.
  revert markers s.
  induction n as [|n IH]; intros markers s.
  { rewrite marker_loop_S. simpl. unfold ret.
    by destruct (one_pass geoms data s) as [s' [m|e]]. }
  rewrite (marker_loop_S (S n)), (marker_loop_S n).
  destruct (one_pass geoms data s) as [s1 [m1|e]]; [ | done ].
  apply IH.
Qed.

(** X15: the markers the driver returns are those of the triangulation
    of the last pass, which is followed by that pass's calibration and by
    nothing else: they are computed from the geometry as it was before
    the last calibration changed it. *)
Theorem run_initial_marker_optimization_returns `{C : Collaborators}
    (geoms : list Geom) (data : Data) (n : nat) (s : session) :
  run_initial_marker_optimization geoms data (Z.of_nat (S n)) s
  = (let! _ := marker_loop n geoms data None in one_pass geoms data) s.
Proof.
  unfold run_initial_marker_optimization.
  replace (Z.to_nat (Z.of_nat (S n))) with (S n) by lia.
  unfold bind, py_assert, ret.
  replace (0 <? Z.of_nat (S n))%Z with true by (symmetry; apply Z.ltb_lt; lia).
  rewrite marker_loop_last.
  destruct (marker_loop n geoms data None s) as [s0 [m0|e]]; [ | done ].
  by destruct (one_pass geoms data s0) as [s1 [m|e]].
Qed.

(* ===================================================================== *)
(** * The Reflex helpers *)
(* ===================================================================== *)

Lemma check_angles_spec `{R : Reflex} (angles : list float) (s : outside) :
  check_angles angles s
  = (s, if forallb angle_ok angles then Ok tt else Raise AssertionError).
Proof.
  induction angles as [|a angles IH]; [ done | ].
  simpl. unfold bind, py_assert.
  destruct (angle_ok a); [ | done ]. simpl. apply IH.
Qed.

(** X16: [geoms_from_reflex] checks every angle before it reads
    anything: if some angle is not within [0, 2 pi] it raises
    [AssertionError] with nothing read, and it returns normally only if
    all angles are within that range. *)
Theorem geoms_from_reflex_checks_angles `{R : Reflex} (dir : string)
    (angles : list float) (s : outside) :
  (forallb angle_ok angles = false ->
     geoms_from_reflex dir angles s
     = match import_reflex s with
       | (s1, Ok _) => (s1, Raise AssertionError)
       | (s1, Raise e) => (s1, Raise e)
       end)
  /\ (is_Ok (snd (geoms_from_reflex dir angles s)) = true ->
      forallb angle_ok angles = true).
Proof.
  unfold geoms_from_reflex, bind.
  destruct (import_reflex s) as [s1 [[]|e]].
  - rewrite check_angles_spec.
    destruct (forallb angle_ok angles); split; done.
  - split; done.
Qed.

Lemma geoms_from_reflex_checks_angles_witness :
  angle_ok 7 = false /\ angle_ok nan = false /\ angle_ok 6.25 = true
  /\ geoms_from_reflex (R := Bench.bench) "scan" [1; 7]%float []
     = ([], Raise AssertionError)
  /\ geoms_from_reflex (R := Bench.bench) "scan" [1; 6.25]%float []
     = (["scan"%string], Ok [1; 6.25]%float).
Proof.
  split; [ reflexivity | ]. split; [ reflexivity | ].
  split; [ reflexivity | ]. split; [ | reflexivity ].
  apply (geoms_from_reflex_checks_angles (R := Bench.bench) "scan"
           [1; 7]%float []).
  reflexivity.
Defined.

Lemma swap_xy_length (x : PyVal) (ys : list float) :
  swap_xy x = Ok ys -> length ys = 3.
Proof.
  unfold swap_xy.
  destruct (getitem x 1); [ | done ].
  destruct (getitem x 0); [ | done ].
  destruct (getitem x 2); [ | done ].
  by intros [= <-].
Qed.

Lemma flip_xy_length (x : PyVal) (ys : list float) :
  flip_xy x = Ok ys -> length ys = 3.
Proof.
  unfold flip_xy.
  destruct (getitem x 1); [ | done ].
  destruct (getitem x 0); [ | done ].
  destruct (getitem x 2); [ | done ].
  by intros [= <-].
Qed.

(** X17: whenever [geom2astravec] returns, it returns twelve numbers,
    whatever the geometry; and a source position with fewer than three
    coordinates makes it raise [IndexError] as soon as it has been
    read. *)
Theorem geom2astravec_twelve `{R : Reflex} (g : StaticGeometry)
    (s : outside) :
  (forall s' vec, geom2astravec g s = (s', Ok vec) -> length vec = 12)
  /\ (forall s1 xs,
        geom_vector g g_source s = (s1, Ok (VArr xs)) -> length xs < 3 ->
        geom2astravec g s = (s1, Raise (OtherException "IndexError"))).
Proof.
  split.
  - intros s' vec. unfold geom2astravec, bind, lift, ret.
    destruct (geom_vector g g_source s) as [s1 [src|e]]; [ | done ].
    destruct (swap_xy src) as [c1|e] eqn:Hc1; [ | done ].
    destruct (geom_vector g g_detector s1) as [s2 [det|e]]; [ | done ].
    destruct (swap_xy det) as [c2|e] eqn:Hc2; [ | done ].
    destruct (geom_vector g g_u s2) as [s3 [u|e]]; [ | done ].
    destruct (flip_xy u) as [du|e] eqn:Hdu; [ | done ].
    destruct (detector_props g s3) as [s4 [props|e]]; [ | done ].
    destruct (pixel_width props s4) as [s5 [width|e]]; [ | done ].
    destruct (geom_vector g g_v s5) as [s6 [v|e]]; [ | done ].
    destruct (flip_xy v) as [ev|e] eqn:Hev; [ | done ].
    destruct (detector_props g s6) as [s7 [props'|e]]; [ | done ].
    destruct (pixel_height props' s7) as [s8 [height|e]]; [ | done ].
    intros [= _ <-]. unfold scaled.
    rewrite !length_app, !length_map.
    rewrite (swap_xy_length _ _ Hc1), (swap_xy_length _ _ Hc2).
    by rewrite (flip_xy_length _ _ Hdu), (flip_xy_length _ _ Hev).
  - intros s1 xs Hsrc Hshort. unfold geom2astravec, bind, lift.
    rewrite Hsrc.
    destruct xs as [ | x0 [ | x1 [ | x2 xs ] ] ]; try done.
    simpl in Hshort. lia.
Qed.

Lemma geom2astravec_twelve_witness :
  exists vec,
    geom2astravec (R := Bench.bench) 5%float [] = ([], Ok vec)
    /\ length vec = 12.
Proof.
  eexists. split; [ reflexivity | ].
  destruct (geom2astravec_twelve (R := Bench.bench) 5%float []) as [Hlen _].
  apply (Hlen []). reflexivity.
Defined.

(** X18: what [astra_residual] does with its optional arguments, once the
    reconstruction object exists.  With neither [geoms] nor [angles] it
    raises [ValueError]; with an empty list of [geoms] it raises
    [IndexError] (the detector is taken from the first geometry); with
    [geoms] given, [angles] is not looked at.  In the first two cases
    nothing is projected: the state is the one the constructor left. *)
Theorem astra_residual_arguments `{R : Reflex} (projs_path : string)
    (nrs : list nat) (vol_id : VolId) (vol_geom : VolGeom) (s : outside) :
  match (let! _ := import_reco in Reconstruction_open projs_path nrs) s with
  | (s1, Raise e) =>
      forall angles geoms,
        astra_residual projs_path nrs vol_id vol_geom angles geoms s
        = (s1, Raise e)
  | (s1, Ok _) =>
      astra_residual projs_path nrs vol_id vol_geom None None s
      = (s1, Raise ValueError)
      /\ (forall angles,
            astra_residual projs_path nrs vol_id vol_geom angles (Some []) s
            = (s1, Raise (OtherException "IndexError")))
      /\ (forall angles angles' gs,
            astra_residual projs_path nrs vol_id vol_geom angles (Some gs) s
            = astra_residual projs_path nrs vol_id vol_geom angles'
                (Some gs) s)
  end.
Proof.
  unfold astra_residual, bind.
  destruct (import_reco s) as [s0 [[]|e]]; [ | done ].
  destruct (Reconstruction_open projs_path nrs s0) as [s1 [rec|e]];
    [ | done ].
  by repeat split.
Qed.

(* ===================================================================== *)
(** * The order of annotated locations *)
(* ===================================================================== *)

Lemma dict_get_elem_of {V : Type} (l : dict V) (i : nat) (v : V) :
  NoDup (l.*1) -> (i, v) ∈ l -> dict_get l i = Ok v.
Proof.
  induction l as [|[k u] l IH]; intros Hnodup Hin.
  { by apply elem_of_nil in Hin. }
  simpl in *. apply NoDup_cons in Hnodup as [Hfresh Hnodup].
  apply elem_of_cons in Hin as [[= -> ->] | Hin].
  { by rewrite Nat.eqb_refl. }
  destruct (Nat.eqb_spec k i) as [-> | Hne]; [ | by apply IH ].
  exfalso. apply Hfresh. apply list_elem_of_fmap. by exists (i, v).
Qed.

Lemma dict_get_Permutation {V : Type} (l l' : dict V) (i : nat) :
  NoDup (l.*1) -> l ≡ₚ l' -> dict_get l' i = dict_get l i.
Proof.
  intros Hnodup Hperm.
  assert (Hnodup' : NoDup (l'.*1)) by (by rewrite <- Hperm).
  destruct (decide (i ∈ l.*1)) as [Hin | Hout].
  - apply list_elem_of_fmap in Hin as ([k v] & -> & Hin). simpl.
    rewrite (dict_get_elem_of l k v Hnodup Hin).
    apply dict_get_elem_of; [ done | ]. by rewrite <- Hperm.
  - assert (Hmiss : forall m : dict V, i ∉ m.*1 ->
              dict_get m i = Raise (OtherException "KeyError")).
    { clear. intros m. induction m as [|[k u] m IH]; [ done | ].
      simpl. intros [Hne Hm]%not_elem_of_cons.
      destruct (Nat.eqb_spec k i); [ done | by apply IH ]. }
    rewrite (Hmiss l Hout). apply Hmiss. by rewrite <- Hperm.
Qed.

Lemma values_at_keys {V : Type} (l : dict V) (keys : list nat) :
  NoDup (l.*1) -> keys ⊆ l.*1 ->
  exists vs, values_at l keys = Ok vs
    /\ Forall2 (fun k v => (k, v) ∈ l) keys vs.
Proof.
  intros Hnodup.
  induction keys as [|i keys IH]; intros Hsub.
  { exists []. split; [ done | constructor ]. }
  assert (Hi : i ∈ l.*1) by (apply Hsub, list_elem_of_here).
  apply list_elem_of_fmap in Hi as ([k v] & -> & Hin). simpl.
  rewrite (dict_get_elem_of l k v Hnodup Hin).
  destruct IH as (vs & -> & Hall).
  { intros j Hj. by apply Hsub, list_elem_of_further. }
  exists (v :: vs). split; [ done | by constructor ].
Qed.

(** X19: the row [needle_data_from_reflex] builds for one projection
    lists the annotated locations by increasing key, each key once and
    each with the location stored under it, and therefore does not depend
    on the order in which the annotations were stored; looking the keys
    up never fails. *)
Theorem ordered_locations_by_key {V : Type} (l : dict V) :
  NoDup (l.*1) ->
  (exists vs, ordered_locations l = Ok vs
     /\ Sorted le (sorted_keys l)
     /\ sorted_keys l ≡ₚ l.*1
     /\ Forall2 (fun k v => (k, v) ∈ l) (sorted_keys l) vs)
  /\ (forall l', l ≡ₚ l' -> ordered_locations l' = ordered_locations l).
Proof.
  intros Hnodup.
  assert (Hperm : sorted_keys l ≡ₚ l.*1) by apply merge_sort_Permutation.
  assert (Hsorted : forall m : dict V, Sorted le (sorted_keys m)).
  { intros m. apply (Sorted_merge_sort le). }
  split.
  - destruct (values_at_keys l (sorted_keys l) Hnodup) as (vs & Hvs & Hall).
    { intros k Hk. by rewrite <- Hperm. }
    exists vs. by repeat split.
  - intros l' Hl'. unfold ordered_locations.
    assert (Hkeys : sorted_keys l' = sorted_keys l).
    { apply (Sorted_unique le); [ apply Hsorted | apply Hsorted | ].
      unfold sorted_keys.
      etransitivity; [ apply merge_sort_Permutation | ].
      etransitivity; [ | symmetry; apply merge_sort_Permutation ].
      apply fmap_Permutation. by symmetry. }
    rewrite Hkeys.
    assert (Hvals : forall keys, values_at l' keys = values_at l keys).
    { intros keys. induction keys as [|i keys IH]; [ done | ].
      simpl. by rewrite (dict_get_Permutation l l' i Hnodup Hl'), IH. }
    apply Hvals.
Qed.

Lemma ordered_locations_by_key_witness :
  ordered_locations Bench.annotations
  = Ok [[20; 21]; [50; 51]; [70; 71]]%float
  /\ ordered_locations (reverse Bench.annotations)
     = ordered_locations Bench.annotations.
Proof.
  assert (Hnodup : NoDup (Bench.annotations.*1)).
  { repeat constructor; simpl; intros Hin;
      repeat (apply elem_of_cons in Hin as [Hin | Hin]; [ discriminate | ]);
      by apply elem_of_nil in Hin. }
  destruct (ordered_locations_by_key Bench.annotations Hnodup)
    as [_ Hany].
  split; [ reflexivity | ].
  apply Hany. by rewrite reverse_Permutation.
Defined.

(* ===================================================================== *)
(** * Explicit bounds *)
(* ===================================================================== *)

Lemma setslice_whole (n : nat) (store : PyVal) :
  setslice (np_empty n) 0 n store
  = match store with
    | VArr xs | VList xs =>
        if length xs =? n then Ok (map Some xs)
        else match xs with
             | [v] => Ok (map Some (replicate n v))
             | _ => Raise ValueError
             end
    | _ =>
        match as_float64 store with
        | Ok v => Ok (map Some (replicate n v))
        | Raise e => Raise e
        end
    end.
Proof.
  assert (Hwrite : forall ys, length ys = n ->
            write (np_empty n) 0 ys = map Some ys).
  { intros ys Hys. unfold write, np_empty. simpl.
    by rewrite Hys, drop_replicate, Nat.sub_diag, app_nil_r. }
  assert (Hlen : length (np_empty n) = n) by apply length_replicate.
  assert (Hseq : forall xs,
            (if length xs =? n then Ok (write (np_empty n) 0 xs)
             else match xs with
                  | [v] => Ok (write (np_empty n) 0 (replicate n v))
                  | _ => Raise ValueError
                  end)
            = (if length xs =? n then Ok (map Some xs)
               else match xs with
                    | [v] => Ok (map Some (replicate n v))
                    | _ => Raise ValueError
                    end)).
  { intros xs. destruct (Nat.eqb_spec (length xs) n) as [Hn | Hn].
    - by rewrite Hwrite.
    - destruct xs as [ | v [ | y xs ] ]; try done.
      by rewrite Hwrite by apply length_replicate. }
  assert (Hone : forall r : result float,
            match r with
            | Ok v => Ok (write (np_empty n) 0 (replicate n v))
            | Raise e => Raise e
            end
            = match r with
              | Ok v => Ok (map Some (replicate n v))
              | Raise e => Raise e
              end).
  { intros [v|e]; [ | done ].
    by rewrite Hwrite by apply length_replicate. }
  unfold setslice. rewrite Hlen.
  change (0 `min` n) with 0. change (0 + n) with n.
  rewrite Nat.min_id, Nat.sub_0_r.
  destruct store as [ | v | xs | xs | f | e | e | num | flag ];
    first [ apply Hseq | apply Hone ].
Qed.

(** X20: explicit bounds are stored unchecked and only meet the value
    when they are packed.  For one included Parameter of length [n > 0]
    whose lower bound was set to an array: packing ['min_bound'] gives
    that array when it has [n] elements, its single element repeated [n]
    times when it has one, and raises [ValueError] otherwise. *)
Theorem explicit_bounds_unchecked (p : ParameterObj) (lo : list float)
    (hi : PyVal) (a : nat) (opt : bool) (w : world) (n : nat) :
  let o := Parameter_set_bounds p (Some (VArr lo, hi)) in
  heap w !! a = Some o -> excluded opt o = false ->
  Parameter_len o = Ok n -> n <> 0 ->
  Parameter_bounds o = Ok (VArr lo, hi)
  /\ params2ndarray [Ref a] opt "min_bound" w
     = (w, if length lo =? n then Ok (VArr lo)
           else match lo with
                | [v] => Ok (VArr (replicate n v))
                | _ => Raise ValueError
                end).
Proof.
  intros o Ha Hex Hlen Hpos.
  assert (Hb : Parameter_bounds o = Ok (VArr lo, hi)) by done.
  split; [ done | ].
  assert (Hexp : expected_length (heap w) [Ref a] opt = Ok n).
  { cbn [expected_length]. unfold included.
    rewrite (as_Parameter_Ref _ _ _ Ha), Hex, Hlen.
    by rewrite Nat.add_0_r. }
  rewrite params2ndarray_unfold, (count_length_Ok _ _ 0 w n Hexp).
  assert (Hw : add_warnings (count_others (heap w) [Ref a]) w = w).
  { rewrite count_others_cons. unfold isParameter.
    rewrite (as_Parameter_Ref _ _ _ Ha). apply add_warnings_0. }
  rewrite Hw. change (0 + n) with n.
  apply Nat.eqb_neq in Hpos. rewrite Hpos.
  rewrite fill_cons. cbv zeta.
  rewrite (as_Parameter_Ref _ _ _ Ha), Hex, Hlen.
  simpl String.eqb. cbv iota. rewrite Hb. simpl fst.
  rewrite setslice_whole.
  destruct (length lo =? n).
  - simpl. by rewrite Nat.eqb_refl, freeze_written.
  - destruct lo as [ | v [ | y lo ] ]; try done.
    simpl. by rewrite Nat.eqb_refl, freeze_written.
Qed.

Lemma explicit_bounds_unchecked_witness :
  let bounded lo :=
    Parameter_set_bounds Scenario.vec123 (Some (VArr lo, VNone)) in
  params2ndarray [Ref 0] true "min_bound"
    {| heap := [bounded [0; 0; 0]%float]; warned := [] |}
  = ({| heap := [bounded [0; 0; 0]%float]; warned := [] |},
     Ok (VArr [0; 0; 0]%float))
  /\ snd (params2ndarray [Ref 0] true "min_bound"
            {| heap := [bounded [-1]%float]; warned := [] |})
     = Ok (VArr [-1; -1; -1]%float)
  /\ snd (params2ndarray [Ref 0] true "min_bound"
            {| heap := [bounded [0; 0]%float]; warned := [] |})
     = Raise ValueError.
Proof.
  intros bounded. split; [ | split ].
  - apply (explicit_bounds_unchecked Scenario.vec123 [0; 0; 0]%float VNone 0
             true {| heap := [bounded [0; 0; 0]%float]; warned := [] |} 3);
      [ reflexivity | reflexivity | reflexivity | lia ].
  - destruct (explicit_bounds_unchecked Scenario.vec123 [-1]%float VNone 0
                true {| heap := [bounded [-1]%float]; warned := [] |} 3)
      as [_ ->]; [ reflexivity | reflexivity | reflexivity | lia | ].
    reflexivity.
  - destruct (explicit_bounds_unchecked Scenario.vec123 [0; 0]%float VNone 0
                true {| heap := [bounded [0; 0]%float]; warned := [] |} 3)
      as [_ ->]; [ reflexivity | reflexivity | reflexivity | lia | ].
    reflexivity.
Defined.
